(** * p5.SimpleUI: the text widgets and the slider

    A shallow embedding of [TextArea], [InputBox] and [Slider] of
    [src/p5.SimpleUI.js], and the properties of their cursor, text buffer,
    focus and value handling.

    Conventions of the embedding.
    - A widget is a record of its fields; a method is a function from the
      host state [p] and the widget to the widget after the call.
    - A registered callback is an observer: a call of [onInput] or
      [onChange] is recorded, in order, in the list of notifications a
      method returns next to the new state.  The field itself only says
      whether a callback is registered ([null] or not).
    - Reading a property of [undefined] raises a [TypeError] in JavaScript;
      a method that can do so returns [option], with [None] for the throw.
    - Pixel quantities are integers ([Z]), whose sums and comparisons are
      exact in the code as well; cursor indices are naturals.
    - A number of the slider is the rational value ([Q]) of a finite
      double, and every arithmetic operation of the code rounds its exact
      result to the nearest double, ties to even.  [NaN], the infinities,
      overflow and the sign of zero are outside the model. *)

From Stdlib Require Import ZArith QArith Qround Qabs Qpower Lia Lqa String
  Ascii.
From stdpp Require Import base option list strings.

(** ** JavaScript strings and arrays *)

Module Js.

(** The line break ["\n"]. *)
Definition nl : ascii := ascii_of_nat 10.

(** [s.substring(start, end)]: both indices are clamped to the length and
    swapped when [start > end]. *)
Definition substring (s : string) (start end_ : nat) : string :=
  let a := Nat.min start (String.length s) in
  let b := Nat.min end_ (String.length s) in
  String.substring (Nat.min a b) (Nat.max a b - Nat.min a b) s.

(** [s.substring(start)]: up to the end of [s]. *)
Definition substring_from (s : string) (start : nat) : string :=
  substring s start (String.length s).

(** [s[i]] for [i < s.length]: the one-character string at index [i]. *)
Definition charAt (s : string) (i : nat) : string :=
  String.substring i 1 s.

(** [s.slice(0, -1)]: all but the last character. *)
Definition slice_0_m1 (s : string) : string :=
  String.substring 0 (String.length s - 1) s.

(** [a.join(sep)] *)
Fixpoint join (sep : string) (a : list string) : string :=
  match a with
  | [] => ""
  | [s] => s
  | s :: rest => s +:+ sep +:+ join sep rest
  end.

(** [s.split(sep)] for a one-character separator: never the empty array. *)
Fixpoint split (sep : ascii) (s : string) : list string :=
  match s with
  | EmptyString => [""]
  | String c s' =>
      if Ascii.eqb c sep then "" :: split sep s'
      else match split sep s' with
           | [] => [String c ""]
           | l :: ls => String c l :: ls
           end
  end.

(** [a.splice(i, 0, v)]: insert [v] before index [i]. *)
Definition splice_insert {A} (a : list A) (i : nat) (v : A) : list A :=
  take i a ++ v :: drop i a.

(** [a.splice(i, 1)]: remove the element at index [i]. *)
Definition splice_delete {A} (a : list A) (i : nat) : list A :=
  delete i a.

(** [s + v] where [v] is read from an array: [undefined] is appended as
    the text ["undefined"]. *)
Definition to_text (v : option string) : string :=
  match v with Some s => s | None => "undefined" end.

End Js.

(** ** JavaScript numbers: rounding to the nearest double *)

Module Double.

(** [2^e] *)
Definition pow2 (e : Z) : Q := Qpower 2 e.

(** The integer [k] with [2^k <= q < 2^(k+1)], for [0 < q]. *)
Definition floorLog2 (q : Q) : Z :=
  let k := (Z.log2 (Qnum q) - Z.log2 (Zpos (Qden q)))%Z in
  if Qle_bool (pow2 k) q then k else (k - 1)%Z.

(** The nearest integer, a half going to the even neighbour. *)
Definition roundHalfEven (q : Q) : Z :=
  let f := Qfloor q in
  match Qcompare (q - inject_Z f) (1 # 2) with
  | Lt => f
  | Gt => (f + 1)%Z
  | Eq => if Z.even f then f else (f + 1)%Z
  end.

(** The exponent of the last place of the doubles around [q], for
    [0 < q]: 53 significant bits, and [-1074] for the subnormal numbers. *)
Definition ulpExponent (q : Q) : Z := Z.max (floorLog2 q - 52) (-1074).

(** The double nearest to [q], for [0 < q]. *)
Definition roundPos (q : Q) : Q :=
  inject_Z (roundHalfEven (q / pow2 (ulpExponent q))) * pow2 (ulpExponent q).

(** The double nearest to [q], ties to even. *)
Definition double (q : Q) : Q :=
  match Qnum q with
  | Z0 => 0
  | Zpos _ => Qred (roundPos q)
  | Zneg _ => Qred (- roundPos (- q))
  end.

(** The operations [+], [-], [*] and [/] on doubles. *)
Definition add (a b : Q) : Q := double (a + b).
Definition sub (a b : Q) : Q := double (a - b).
Definition mul (a b : Q) : Q := double (a * b).
Definition div (a b : Q) : Q := double (a / b).

End Double.

Arguments Double.double : simpl never.

(** ** The host: the p5 instance *)

Module P5.

(** What the widgets read from [this.p] during one event. *)
Record t := mk {
  mouseX : Z;
  mouseY : Z;
  keyCode : Z;
  key : string;
  textWidth : string -> Z }.

(** Key codes of p5.js. *)
Definition BACKSPACE : Z := 8.
Definition ENTER : Z := 13.
Definition LEFT_ARROW : Z := 37.
Definition UP_ARROW : Z := 38.
Definition RIGHT_ARROW : Z := 39.
Definition DOWN_ARROW : Z := 40.

(** [p.constrain(n, low, high)] is [Math.max(Math.min(n, high), low)]. *)
Definition constrain (n low high : Z) : Z := Z.max (Z.min n high) low.

End P5.

(** ** TextArea *)

Module TextArea.

Record t := mk {
  x : Z; y : Z; w : Z; h : Z;
  text : string;
  lines : list string;
  isFocused : bool;
  onInput : bool;
  cursorX : nat;
  cursorY : nat;
  scrollY : Z;
  lineHeight : Z }.

Definition constructor (x y w h : Z) (defaultText : string) : t :=
  {| x := x; y := y; w := w; h := h;
     text := defaultText;
     lines := [defaultText];
     isFocused := false;
     onInput := false;
     cursorX := 0;
     cursorY := 0;
     scrollY := 0;
     lineHeight := 20 |}.

(** The [while] loop of [handleClick].  [cursorX] grows by one in every
    round and stops at the length of the line, so [String.length line]
    rounds are enough when it starts from 0. *)
Fixpoint clickLoop (p : P5.t) (line : string) (x : Z) (fuel : nat)
    (cursorX : nat) (lineWidth : Z) : nat :=
  match fuel with
  | O => cursorX
  | S fuel' =>
      if (cursorX <? String.length line)%nat && (lineWidth <? x)%Z
      then clickLoop p line x fuel' (S cursorX)
             (lineWidth + P5.textWidth p (Js.charAt line cursorX))
      else cursorX
  end.

Definition handleClick (p : P5.t) (ta : t) : option t :=
  let isFocused :=
    (x ta <? P5.mouseX p)%Z && (P5.mouseX p <? x ta + w ta)%Z &&
    (y ta <? P5.mouseY p)%Z && (P5.mouseY p <? y ta + h ta)%Z in
  if isFocused then
    let y' := ((P5.mouseY p - y ta + scrollY ta) / lineHeight ta)%Z in
    let cursorY :=
      Z.to_nat (P5.constrain y' 0 (Z.of_nat (length (lines ta)) - 1)) in
    let x' := (P5.mouseX p - x ta - 5)%Z in
    line ← lines ta !! cursorY;
    let cursorX := clickLoop p line x' (String.length line) 0 0 in
    Some {| x := x ta; y := y ta; w := w ta; h := h ta;
            text := text ta; lines := lines ta;
            isFocused := true; onInput := onInput ta;
            cursorX := cursorX; cursorY := cursorY;
            scrollY := scrollY ta; lineHeight := lineHeight ta |}
  else
    Some {| x := x ta; y := y ta; w := w ta; h := h ta;
            text := text ta; lines := lines ta;
            isFocused := false; onInput := onInput ta;
            cursorX := cursorX ta; cursorY := cursorY ta;
            scrollY := scrollY ta; lineHeight := lineHeight ta |}.

(** The chain of key branches of [handleKeyPress]: the lines and the
    cursor [(cursorX, cursorY)] after it. *)
Definition keyBranch (p : P5.t) (lines : list string) (cursorX cursorY : nat)
    : option (list string * nat * nat) :=
  if (P5.keyCode p =? P5.ENTER)%Z then
    line ← lines !! cursorY;
    let rightPart := Js.substring_from line cursorX in
    let lines1 := <[cursorY := Js.substring line 0 cursorX]> lines in
    let lines2 := Js.splice_insert lines1 (cursorY + 1) rightPart in
    Some (lines2, 0, cursorY + 1)
  else if (P5.keyCode p =? P5.BACKSPACE)%Z then
    if (0 <? cursorX)%nat then
      line ← lines !! cursorY;
      Some (<[cursorY := Js.substring line 0 (cursorX - 1)
                         +:+ Js.substring_from line cursorX]> lines,
            cursorX - 1, cursorY)
    else if (0 <? cursorY)%nat then
      prev ← lines !! (cursorY - 1);
      let cursorX' := String.length prev in
      let lines1 :=
        <[cursorY - 1 := prev +:+ Js.to_text (lines !! cursorY)]> lines in
      let lines2 := Js.splice_delete lines1 cursorY in
      Some (lines2, cursorX', cursorY - 1)
    else Some (lines, cursorX, cursorY)
  else if (P5.keyCode p =? P5.LEFT_ARROW)%Z then
    if (0 <? cursorX)%nat then Some (lines, cursorX - 1, cursorY)
    else if (0 <? cursorY)%nat then
      line ← lines !! (cursorY - 1);
      Some (lines, String.length line, cursorY - 1)
    else Some (lines, cursorX, cursorY)
  else if (P5.keyCode p =? P5.RIGHT_ARROW)%Z then
    line ← lines !! cursorY;
    if (cursorX <? String.length line)%nat then
      Some (lines, cursorX + 1, cursorY)
    else if (Z.of_nat cursorY <? Z.of_nat (length lines) - 1)%Z then
      Some (lines, 0, cursorY + 1)
    else Some (lines, cursorX, cursorY)
  else if (P5.keyCode p =? P5.UP_ARROW)%Z then
    if (0 <? cursorY)%nat then
      line ← lines !! (cursorY - 1);
      Some (lines, Nat.min cursorX (String.length line), cursorY - 1)
    else Some (lines, cursorX, cursorY)
  else if (P5.keyCode p =? P5.DOWN_ARROW)%Z then
    if (Z.of_nat cursorY <? Z.of_nat (length lines) - 1)%Z then
      line ← lines !! (cursorY + 1);
      Some (lines, Nat.min cursorX (String.length line), cursorY + 1)
    else Some (lines, cursorX, cursorY)
  else if (String.length (P5.key p) =? 1)%nat then
    line ← lines !! cursorY;
    Some (<[cursorY := Js.substring line 0 cursorX +:+ P5.key p
                       +:+ Js.substring_from line cursorX]> lines,
          cursorX + 1, cursorY)
  else Some (lines, cursorX, cursorY).

(** The block under [// Update scroll position]. *)
Definition updateScroll (cursorY : nat) (lineHeight h scrollY : Z) : Z :=
  if (Z.of_nat cursorY * lineHeight <? scrollY)%Z then
    (Z.of_nat cursorY * lineHeight)%Z
  else if (scrollY + h <? (Z.of_nat cursorY + 1) * lineHeight)%Z then
    ((Z.of_nat cursorY + 1) * lineHeight - h)%Z
  else scrollY.

(** [handleKeyPress]: the state after the call and the calls of
    [onInput] it made, with their argument. *)
Definition handleKeyPress (p : P5.t) (ta : t) : option (t * list string) :=
  if negb (isFocused ta) then Some (ta, [])
  else
    '(lines', cursorX', cursorY') ←
      keyBranch p (lines ta) (cursorX ta) (cursorY ta);
    let scrollY' :=
      updateScroll cursorY' (lineHeight ta) (h ta) (scrollY ta) in
    let text' := Js.join (String Js.nl "") lines' in
    Some ({| x := x ta; y := y ta; w := w ta; h := h ta;
             text := text'; lines := lines';
             isFocused := true; onInput := onInput ta;
             cursorX := cursorX'; cursorY := cursorY';
             scrollY := scrollY'; lineHeight := lineHeight ta |},
          if onInput ta then [text'] else []).

Definition getText (ta : t) : string := text ta.

Definition setText (text : string) (ta : t) : option t :=
  let lines := Js.split Js.nl text in
  last_line ← lines !! (length lines - 1);
  Some {| x := x ta; y := y ta; w := w ta; h := h ta;
          text := text; lines := lines;
          isFocused := isFocused ta; onInput := onInput ta;
          cursorX := String.length last_line;
          cursorY := length lines - 1;
          scrollY := scrollY ta; lineHeight := lineHeight ta |}.

Definition setOnInput (ta : t) : t :=
  {| x := x ta; y := y ta; w := w ta; h := h ta;
     text := text ta; lines := lines ta;
     isFocused := isFocused ta; onInput := true;
     cursorX := cursorX ta; cursorY := cursorY ta;
     scrollY := scrollY ta; lineHeight := lineHeight ta |}.

End TextArea.

(** ** Sequences of TextArea operations and the cursor invariant *)

Module TextAreaOps.
Import TextArea.

(** The cursor addresses a position of an existing line. *)
Definition valid (ta : t) : Prop :=
  lines ta <> [] /\
  (cursorY ta < length (lines ta))%nat /\
  exists line, lines ta !! cursorY ta = Some line /\
               (cursorX ta <= String.length line)%nat.

(** An operation the host or the application performs on the widget. *)
Inductive op :=
| KeyPress (p : P5.t)
| Click (p : P5.t)
| SetText (s : string).

Definition step (o : op) (ta : t) : option t :=
  match o with
  | KeyPress p => fst <$> handleKeyPress p ta
  | Click p => handleClick p ta
  | SetText s => setText s ta
  end.

Fixpoint run (ops : list op) (ta : t) : option t :=
  match ops with
  | [] => Some ta
  | o :: ops' => ta' ← step o ta; run ops' ta'
  end.

(** The measured width of the first [k] characters of [line], one
    character at a time, as [handleClick] accumulates it. *)
Fixpoint prefixWidth (p : P5.t) (line : string) (k : nat) : Z :=
  match k with
  | O => 0
  | S k' => prefixWidth p line k' + P5.textWidth p (Js.charAt line k')
  end.

(** The pointer is strictly inside the rectangle of the widget. *)
Definition inside (p : P5.t) (ta : t) : Prop :=
  (x ta < P5.mouseX p < x ta + w ta)%Z /\
  (y ta < P5.mouseY p < y ta + h ta)%Z.

(** A key event, and a pointer event on a host whose every character
    measures [cw] pixels. *)
Definition keyEvent (keyCode : Z) (key : string) : P5.t :=
  P5.mk 0 0 keyCode key (fun _ => 0%Z).

Definition pointerEvent (cw mouseX mouseY : Z) : P5.t :=
  P5.mk mouseX mouseY 0 "" (fun _ => cw).

(** A text area at the origin in a given editing state. *)
Definition editing (w h : Z) (lines : list string) (cursorX cursorY : nat)
    (scrollY : Z) (onInput : bool) : t :=
  {| x := 0; y := 0; w := w; h := h;
     text := Js.join (String Js.nl "") lines; lines := lines;
     isFocused := true; onInput := onInput;
     cursorX := cursorX; cursorY := cursorY;
     scrollY := scrollY; lineHeight := 20 |}.

End TextAreaOps.

(** ** InputBox *)

Module InputBox.

Record t := mk {
  x : Z; y : Z; w : Z; h : Z;
  text : string;
  isFocused : bool;
  onInput : bool;
  cursorVisible : bool;
  lastBlink : Z;
  blinkInterval : Z }.

Definition constructor (x y w h : Z) (defaultText : string) : t :=
  {| x := x; y := y; w := w; h := h;
     text := defaultText;
     isFocused := false;
     onInput := false;
     cursorVisible := true;
     lastBlink := 0;
     blinkInterval := 500 |}.

Definition with_isFocused (b : bool) (ib : t) : t :=
  {| x := x ib; y := y ib; w := w ib; h := h ib;
     text := text ib; isFocused := b; onInput := onInput ib;
     cursorVisible := cursorVisible ib; lastBlink := lastBlink ib;
     blinkInterval := blinkInterval ib |}.

Definition with_text (s : string) (ib : t) : t :=
  {| x := x ib; y := y ib; w := w ib; h := h ib;
     text := s; isFocused := isFocused ib; onInput := onInput ib;
     cursorVisible := cursorVisible ib; lastBlink := lastBlink ib;
     blinkInterval := blinkInterval ib |}.

Definition handleClick (p : P5.t) (ib : t) : t :=
  with_isFocused
    ((x ib <? P5.mouseX p)%Z && (P5.mouseX p <? x ib + w ib)%Z &&
     (y ib <? P5.mouseY p)%Z && (P5.mouseY p <? y ib + h ib)%Z) ib.

(** [handleKeyPress]: the state after the call and the calls of
    [onInput] it made, with their argument. *)
Definition handleKeyPress (p : P5.t) (ib : t) : t * list string :=
  if negb (isFocused ib) then (ib, [])
  else
    let ib' :=
      if (P5.keyCode p =? P5.BACKSPACE)%Z then
        if (0 <? String.length (text ib))%nat
        then with_text (Js.slice_0_m1 (text ib)) ib
        else ib
      else if (P5.keyCode p =? P5.ENTER)%Z then with_isFocused false ib
      else if (String.length (P5.key p) =? 1)%nat
        then with_text (text ib +:+ P5.key p) ib
      else ib in
    (ib', if onInput ib' then [text ib'] else []).

Definition getText (ib : t) : string := text ib.

(** The pointer is strictly inside the rectangle of the widget. *)
Definition inside (p : P5.t) (ib : t) : Prop :=
  (x ib < P5.mouseX p < x ib + w ib)%Z /\
  (y ib < P5.mouseY p < y ib + h ib)%Z.

End InputBox.

(** ** Slider *)

Module Slider.

(** [Math.round]: the nearest integer, a half rounded up. *)
Definition Math_round (q : Q) : Z := Qfloor (q + (1 # 2)).

(** A number is truthy when it is not zero. *)
Definition truthy (q : Q) : bool := negb (Qeq_bool q 0).

(** [p.constrain(n, low, high)] is [Math.max(Math.min(n, high), low)]. *)
Definition Math_min (a b : Q) : Q := if Qle_bool a b then a else b.
Definition Math_max (a b : Q) : Q := if Qle_bool b a then a else b.
Definition constrain (n low high : Q) : Q := Math_max (Math_min n high) low.

Record t := mk {
  x : Z; y : Z; length : Z;
  isVertical : bool;
  width : Z; height : Z;
  min : Q; max : Q;
  isInteger : bool;
  step : Q;
  value : Q;
  isDragging : bool;
  isHovering : bool;
  onChange : bool;
  handleSize : Z;
  label : string;
  labelWidth : Z }.

(** [step] is [None] for the default [null]. *)
Definition constructor (x y length : Z) (min max defaultValue : Q)
    (isInteger : bool) (step : option Q) (label : string)
    (isVertical : bool) : t :=
  {| x := x; y := y; length := length;
     isVertical := isVertical;
     width := if isVertical then 20 else length;
     height := if isVertical then length else 20;
     min := min; max := max;
     isInteger := isInteger;
     step := match step with
             | Some s => if truthy s then s
                         else if isInteger then 1
                              else Double.div (Double.sub max min) 100
             | None => if isInteger then 1
                       else Double.div (Double.sub max min) 100
             end;
     value := if isInteger then inject_Z (Math_round defaultValue)
              else defaultValue;
     isDragging := false;
     isHovering := false;
     onChange := false;
     handleSize := 20;
     label := label;
     labelWidth := 100 |}.

Definition getValue (s : t) : Q := value s.

(** The value [setValue] hands to [constrain]. *)
Definition quantize (s : t) (value : Q) : Q :=
  if isInteger s then inject_Z (Math_round value)
  else if truthy (step s)
    then Double.mul (inject_Z (Math_round (Double.div value (step s))))
           (step s)
  else value.

(** [setValue]: the state after the call and the calls of [onChange] it
    made, with their argument. *)
Definition setValue (v : Q) (s : t) : t * list Q :=
  let value' := constrain (quantize s v) (min s) (max s) in
  ({| x := x s; y := y s; length := length s;
      isVertical := isVertical s;
      width := width s; height := height s;
      min := min s; max := max s;
      isInteger := isInteger s;
      step := step s;
      value := value';
      isDragging := isDragging s;
      isHovering := isHovering s;
      onChange := onChange s;
      handleSize := handleSize s;
      label := label s;
      labelWidth := labelWidth s |},
   if onChange s then [value'] else []).

Definition setOnChange (s : t) : t :=
  {| x := x s; y := y s; length := length s;
     isVertical := isVertical s;
     width := width s; height := height s;
     min := min s; max := max s;
     isInteger := isInteger s;
     step := step s;
     value := value s;
     isDragging := isDragging s;
     isHovering := isHovering s;
     onChange := true;
     handleSize := handleSize s;
     label := label s;
     labelWidth := labelWidth s |}.

(** [p.map(n, start1, stop1, start2, stop2)], without the clamp:
    [(n - start1) / (stop1 - start1) * (stop2 - start2) + start2].  The
    model is that of the code for [stop1 <> start1]. *)
Definition map (n start1 stop1 start2 stop2 : Q) : Q :=
  Double.add
    (Double.mul
       (Double.div (Double.sub n start1) (Double.sub stop1 start1))
       (Double.sub stop2 start2))
    start2.

Definition with_value (v : Q) (s : t) : t :=
  {| x := x s; y := y s; length := length s;
     isVertical := isVertical s;
     width := width s; height := height s;
     min := min s; max := max s;
     isInteger := isInteger s;
     step := step s;
     value := v;
     isDragging := isDragging s;
     isHovering := isHovering s;
     onChange := onChange s;
     handleSize := handleSize s;
     label := label s;
     labelWidth := labelWidth s |}.

Definition with_isDragging (b : bool) (s : t) : t :=
  {| x := x s; y := y s; length := length s;
     isVertical := isVertical s;
     width := width s; height := height s;
     min := min s; max := max s;
     isInteger := isInteger s;
     step := step s;
     value := value s;
     isDragging := b;
     isHovering := isHovering s;
     onChange := onChange s;
     handleSize := handleSize s;
     label := label s;
     labelWidth := labelWidth s |}.

Definition with_isHovering (b : bool) (s : t) : t :=
  {| x := x s; y := y s; length := length s;
     isVertical := isVertical s;
     width := width s; height := height s;
     min := min s; max := max s;
     isInteger := isInteger s;
     step := step s;
     value := value s;
     isDragging := isDragging s;
     isHovering := b;
     onChange := onChange s;
     handleSize := handleSize s;
     label := label s;
     labelWidth := labelWidth s |}.

(** The value [handleDrag] computes from the pointer, before [constrain]:
    the position mapped onto the range, rounded to the step when the step
    is truthy, and then rounded to an integer for an integer slider. *)
Definition dragValue (p : P5.t) (s : t) : Q :=
  let mousePos := if isVertical s then P5.mouseY p else P5.mouseX p in
  let sliderStart := if isVertical s then y s else x s in
  let newValue :=
    map (inject_Z mousePos) (inject_Z sliderStart)
      (inject_Z (sliderStart + length s))
      (if isVertical s then max s else min s)
      (if isVertical s then min s else max s) in
  let newValue :=
    if truthy (step s)
    then Double.mul (inject_Z (Math_round (Double.div newValue (step s))))
           (step s)
    else newValue in
  if isInteger s then inject_Z (Math_round newValue) else newValue.

(** [handleDrag]: the state after the call and the calls of [onChange]. *)
Definition handleDrag (p : P5.t) (s : t) : t * list Q :=
  if isDragging s then
    let value' := constrain (dragValue p s) (min s) (max s) in
    (with_value value' s, if onChange s then [value'] else [])
  else (s, []).

Definition handleMousePressed (p : P5.t) (s : t) : t * list Q :=
  if (x s <? P5.mouseX p)%Z && (P5.mouseX p <? x s + width s)%Z &&
     (y s <? P5.mouseY p)%Z && (P5.mouseY p <? y s + height s)%Z
  then handleDrag p (with_isDragging true s)
  else (s, []).

Definition handleMouseReleased (s : t) : t := with_isDragging false s.

Definition handleMouseMoved (p : P5.t) (s : t) : t :=
  with_isHovering
    ((x s <? P5.mouseX p)%Z && (P5.mouseX p <? x s + width s)%Z &&
     (y s <? P5.mouseY p)%Z && (P5.mouseY p <? y s + height s)%Z) s.

(** A pointer event of the host. *)
Definition pointer (mouseX mouseY : Z) : P5.t :=
  P5.mk mouseX mouseY 0 "" (fun _ => 0%Z).

End Slider.

(** ** Button *)

Module Button.

Record t := mk {
  x : Z; y : Z; w : Z; h : Z;
  label : string;
  onClick : bool;
  isHovered : bool }.

Definition constructor (x y w h : Z) (label : string) : t :=
  {| x := x; y := y; w := w; h := h; label := label;
     onClick := false; isHovered := false |}.

Definition isMouseOver (p : P5.t) (b : t) : bool :=
  (x b <? P5.mouseX p)%Z && (P5.mouseX p <? x b + w b)%Z &&
  (y b <? P5.mouseY p)%Z && (P5.mouseY p <? y b + h b)%Z.

(** [handleClick]: the calls of [onClick] it made; the button itself is
    not changed. *)
Definition handleClick (p : P5.t) (b : t) : list unit :=
  if isMouseOver p b && onClick b then [tt] else [].

Definition handleMouseMove (p : P5.t) (b : t) : t :=
  {| x := x b; y := y b; w := w b; h := h b; label := label b;
     onClick := onClick b; isHovered := isMouseOver p b |}.

Definition setOnClick (b : t) : t :=
  {| x := x b; y := y b; w := w b; h := h b; label := label b;
     onClick := true; isHovered := isHovered b |}.

End Button.

(** ** Checkbox *)

Module Checkbox.

Record t := mk {
  x : Z; y : Z;
  label : string;
  checked : bool;
  onChange : bool }.

Definition constructor (x y : Z) (label : string) : t :=
  {| x := x; y := y; label := label; checked := false; onChange := false |}.

(** [handleClick]: the state after the call and the calls of [onChange]
    it made, with their argument. *)
Definition handleClick (p : P5.t) (c : t) : t * list bool :=
  if (x c <? P5.mouseX p)%Z && (P5.mouseX p <? x c + 20)%Z &&
     (y c <? P5.mouseY p)%Z && (P5.mouseY p <? y c + 20)%Z
  then
    let checked' := negb (checked c) in
    ({| x := x c; y := y c; label := label c;
        checked := checked'; onChange := onChange c |},
     if onChange c then [checked'] else [])
  else (c, []).

Definition isChecked (c : t) : bool := checked c.

Definition setOnChange (c : t) : t :=
  {| x := x c; y := y c; label := label c;
     checked := checked c; onChange := true |}.

End Checkbox.

(** ** RadioButton *)

Module RadioButton.

Record t := mk {
  x : Z; y : Z;
  options : list string;
  selected : nat;
  onChange : bool }.

Definition constructor (x y : Z) (options : list string) : t :=
  {| x := x; y := y; options := options; selected := 0; onChange := false |}.

(** [p.dist(mouseX, mouseY, cx, cy) < 10]: the Euclidean distance of two
    points with integer coordinates is below 10 exactly when the sum of
    the squared differences is below 100. *)
Definition near (p : P5.t) (cx cy : Z) : bool :=
  ((P5.mouseX p - cx) * (P5.mouseX p - cx)
   + (P5.mouseY p - cy) * (P5.mouseY p - cy) <? 100)%Z.

(** The [for] loop of [handleClick], from index [i] on, over the options
    from [i] on: the index and the option of the first button within
    reach, where the loop breaks. *)
Fixpoint scan (p : P5.t) (x y : Z) (i : nat) (rest : list string)
    : option (nat * string) :=
  match rest with
  | [] => None
  | o :: rest' =>
      if near p x (y + Z.of_nat i * 25) then Some (i, o)
      else scan p x y (S i) rest'
  end.

(** [handleClick]: the state after the call and the calls of [onChange]
    it made, with their argument. *)
Definition handleClick (p : P5.t) (rb : t) : t * list string :=
  match scan p (x rb) (y rb) 0 (options rb) with
  | Some (i, o) =>
      ({| x := x rb; y := y rb; options := options rb;
          selected := i; onChange := onChange rb |},
       if onChange rb then [o] else [])
  | None => (rb, [])
  end.

(** [getSelected]: [None] stands for [undefined]. *)
Definition getSelected (rb : t) : option string :=
  options rb !! selected rb.

Definition setOnChange (rb : t) : t :=
  {| x := x rb; y := y rb; options := options rb;
     selected := selected rb; onChange := true |}.

End RadioButton.

(** ** ColorPicker: the colour of the label *)

Module ColorPicker.

(** The value of a digit of radix 16. *)
Definition hexDigit (c : ascii) : option Z :=
  let n := Z.of_nat (nat_of_ascii c) in
  if (48 <=? n)%Z && (n <=? 57)%Z then Some (n - 48)%Z
  else if (97 <=? n)%Z && (n <=? 102)%Z then Some (n - 87)%Z
  else if (65 <=? n)%Z && (n <=? 70)%Z then Some (n - 55)%Z
  else None.

(** White space and line terminators among the code units below 256. *)
Definition isWhiteSpace (c : ascii) : bool :=
  let n := nat_of_ascii c in
  (n =? 9)%nat || (n =? 10)%nat || (n =? 11)%nat || (n =? 12)%nat ||
  (n =? 13)%nat || (n =? 32)%nat || (n =? 160)%nat.

Fixpoint trimStart (s : string) : string :=
  match s with
  | EmptyString => EmptyString
  | String c s' => if isWhiteSpace c then trimStart s' else s
  end.

(** The value of the longest prefix of hexadecimal digits, after the
    digits read so far; [None] when there is no digit at all. *)
Fixpoint hexDigits (acc : option Z) (s : string) : option Z :=
  match s with
  | EmptyString => acc
  | String c s' =>
      match hexDigit c with
      | Some d => hexDigits (Some (16 * default 0%Z acc + d)%Z) s'
      | None => acc
      end
  end.

(** [parseInt(s, 16)]: leading white space, a sign and a prefix [0x] or
    [0X] are skipped, then the longest prefix of digits is read; [None]
    stands for [NaN]. *)
Definition parseInt16 (s : string) : option Z :=
  let s1 := trimStart s in
  let '(sign, s2) :=
    match s1 with
    | String c r =>
        if Ascii.eqb c "-" then ((-1)%Z, r)
        else if Ascii.eqb c "+" then (1%Z, r)
        else (1%Z, s1)
    | EmptyString => (1%Z, s1)
    end in
  let s3 :=
    match s2 with
    | String z (String c r) =>
        if Ascii.eqb z "0" && (Ascii.eqb c "x" || Ascii.eqb c "X")
        then r else s2
    | _ => s2
    end in
  n ← hexDigits None s3; Some (sign * n)%Z.

(** [color.slice(i, i + 2)] *)
Definition channel (color : string) (i : nat) : option Z :=
  parseInt16 (String.substring i 2 color).

(** [yiq] of [updateButtonStyle]; [None] stands for [NaN]. *)
Definition yiq (color : string) : option Q :=
  r ← channel color 1;
  g ← channel color 3;
  b ← channel color 5;
  Some (inject_Z (r * 299 + g * 587 + b * 114) / 1000)%Q.

(** The colour [updateButtonStyle] gives the text of the button. *)
Definition labelColor (color : string) : string :=
  match yiq color with
  | Some q => if Qle_bool 128 q then "#000000" else "#FFFFFF"
  | None => "#FFFFFF"
  end.

(** A colour [#rrggbb] from its six digits. *)
Definition hexColor (r1 r0 g1 g0 b1 b0 : ascii) : string :=
  String "#" (String r1 (String r0 (String g1 (String g0
    (String b1 (String b0 EmptyString)))))).

End ColorPicker.

(** ** Key events of the text widgets *)

Module Keys.

(** The key codes [TextArea.handleKeyPress] has a branch for. *)
Definition special (keyCode : Z) : bool :=
  (keyCode =? P5.ENTER)%Z || (keyCode =? P5.BACKSPACE)%Z ||
  (keyCode =? P5.LEFT_ARROW)%Z || (keyCode =? P5.RIGHT_ARROW)%Z ||
  (keyCode =? P5.UP_ARROW)%Z || (keyCode =? P5.DOWN_ARROW)%Z.

Definition arrow (keyCode : Z) : bool :=
  (keyCode =? P5.LEFT_ARROW)%Z || (keyCode =? P5.RIGHT_ARROW)%Z ||
  (keyCode =? P5.UP_ARROW)%Z || (keyCode =? P5.DOWN_ARROW)%Z.

(** A key that types its one character. *)
Definition printable (p : P5.t) : Prop :=
  special (P5.keyCode p) = false /\ String.length (P5.key p) = 1.

(** The same event with another key code and key. *)
Definition press (keyCode : Z) (key : string) (p : P5.t) : P5.t :=
  P5.mk (P5.mouseX p) (P5.mouseY p) keyCode key (P5.textWidth p).

(** The characters a sequence of key events types. *)
Fixpoint typed (ps : list P5.t) : string :=
  match ps with
  | [] => EmptyString
  | p :: ps' => P5.key p +:+ typed ps'
  end.

End Keys.

(** ** Sequences of Slider operations *)

Module SliderOps.

Inductive op :=
| Press (p : P5.t)
| Drag (p : P5.t)
| Release
| Move (p : P5.t)
| SetValue (v : Q).

Definition step (o : op) (s : Slider.t) : Slider.t :=
  match o with
  | Press p => fst (Slider.handleMousePressed p s)
  | Drag p => fst (Slider.handleDrag p s)
  | Release => Slider.handleMouseReleased s
  | Move p => Slider.handleMouseMoved p s
  | SetValue v => fst (Slider.setValue v s)
  end.

Definition run (ops : list op) (s : Slider.t) : Slider.t :=
  foldl (fun s o => step o s) s ops.

End SliderOps.

(** * Properties *)

Import TextArea TextAreaOps.

(** ** Strings *)

Section Strings.

Lemma string_length_app (a b : string) :
  String.length (a +:+ b) = String.length a + String.length b.
Proof. induction a as [|c a IH]; simpl; [reflexivity | now rewrite IH]. Qed.

Lemma string_length_substring (s : string) :
  forall n m,
    String.length (String.substring n m s) = Nat.min m (String.length s - n).
Proof.
  induction s as [|c s IH]; intros [|n] [|m]; simpl; try reflexivity;
    rewrite IH; try reflexivity; f_equal; lia.
Qed.

Lemma length_substring_prefix (s : string) (n : nat) :
  n <= String.length s -> String.length (Js.substring s 0 n) = n.
Proof.
  intros Hn. unfold Js.substring.
  rewrite Nat.min_0_l, Nat.min_0_l, Nat.max_0_l, Nat.sub_0_r.
  rewrite string_length_substring. lia.
Qed.

Lemma split_not_nil (sep : ascii) (s : string) : Js.split sep s <> [].
Proof.
  destruct s as [|c s]; simpl; [discriminate|].
  destruct (Ascii.eqb c sep); [discriminate|].
  destruct (Js.split sep s); discriminate.
Qed.

Lemma join_split (s : string) :
  Js.join (String Js.nl "") (Js.split Js.nl s) = s.
Proof.
  induction s as [|c s IH]; [reflexivity|].
  simpl Js.split. destruct (Ascii.eqb_spec c Js.nl) as [->|Hc].
  - pose proof (split_not_nil Js.nl s) as Hne.
    destruct (Js.split Js.nl s) as [|l ls] eqn:E; [congruence|].
    change (Js.join (String Js.nl "") ("" :: l :: ls))
      with (String Js.nl (Js.join (String Js.nl "") (l :: ls))).
    now rewrite IH.
  - pose proof (split_not_nil Js.nl s) as Hne.
    destruct (Js.split Js.nl s) as [|l ls] eqn:E; [congruence|].
    rewrite <- IH. destruct ls; reflexivity.
Qed.

End Strings.

(** ** The key branches keep the cursor on a line *)

Section KeyBranch.

Variables (p : P5.t) (ls : list string) (cx cy : nat) (line : string).
Hypothesis Hline : ls !! cy = Some line.
Hypothesis Hcx : cx <= String.length line.

Ltac cursor_at := eexists _, _, _, _; split; [reflexivity|]; split.

Lemma keyBranch_cursor :
  exists ls' cx' cy' line',
    keyBranch p ls cx cy = Some (ls', cx', cy') /\
    ls' !! cy' = Some line' /\ cx' <= String.length line'.
Proof using Hline Hcx.
  pose proof (lookup_lt_Some _ _ _ Hline) as Hlt.
  unfold keyBranch.
  destruct (P5.keyCode p =? P5.ENTER)%Z.
  { rewrite Hline; simpl. cursor_at; [|lia].
    unfold Js.splice_insert.
    rewrite lookup_app_r; rewrite length_take_le;
      rewrite ?length_insert; try lia.
    now rewrite Nat.sub_diag. }
  destruct (P5.keyCode p =? P5.BACKSPACE)%Z.
  { destruct (Nat.ltb_spec 0 cx) as [Hpos|Hz].
    - rewrite Hline; simpl. cursor_at.
      + now apply list_lookup_insert_eq.
      + rewrite string_length_app, length_substring_prefix; lia.
    - destruct (Nat.ltb_spec 0 cy) as [Hrow|Hrow].
      + destruct (lookup_lt_is_Some_2 ls (cy - 1)) as [prev Hprev]; [lia|].
        rewrite Hprev; simpl. cursor_at.
        * unfold Js.splice_delete.
          rewrite list_lookup_delete_lt by lia.
          apply list_lookup_insert_eq; lia.
        * rewrite string_length_app; lia.
      + cursor_at; [exact Hline | exact Hcx]. }
  destruct (P5.keyCode p =? P5.LEFT_ARROW)%Z.
  { destruct (Nat.ltb_spec 0 cx) as [Hpos|Hz].
    - cursor_at; [exact Hline | lia].
    - destruct (Nat.ltb_spec 0 cy) as [Hrow|Hrow].
      + destruct (lookup_lt_is_Some_2 ls (cy - 1)) as [prev Hprev]; [lia|].
        rewrite Hprev; simpl. cursor_at; [exact Hprev | lia].
      + cursor_at; [exact Hline | exact Hcx]. }
  destruct (P5.keyCode p =? P5.RIGHT_ARROW)%Z.
  { rewrite Hline; simpl.
    destruct (Nat.ltb_spec cx (String.length line)) as [Hin|Hend].
    - cursor_at; [exact Hline | lia].
    - destruct (Z.ltb_spec (Z.of_nat cy) (Z.of_nat (length ls) - 1))
        as [Hrow|Hrow].
      + destruct (lookup_lt_is_Some_2 ls (cy + 1)) as [next Hnext]; [lia|].
        cursor_at; [exact Hnext | lia].
      + cursor_at; [exact Hline | exact Hcx]. }
  destruct (P5.keyCode p =? P5.UP_ARROW)%Z.
  { destruct (Nat.ltb_spec 0 cy) as [Hrow|Hrow].
    - destruct (lookup_lt_is_Some_2 ls (cy - 1)) as [prev Hprev]; [lia|].
      rewrite Hprev; simpl. cursor_at; [exact Hprev | lia].
    - cursor_at; [exact Hline | exact Hcx]. }
  destruct (P5.keyCode p =? P5.DOWN_ARROW)%Z.
  { destruct (Z.ltb_spec (Z.of_nat cy) (Z.of_nat (length ls) - 1))
      as [Hrow|Hrow].
    - destruct (lookup_lt_is_Some_2 ls (cy + 1)) as [next Hnext]; [lia|].
      rewrite Hnext; simpl. cursor_at; [exact Hnext | lia].
    - cursor_at; [exact Hline | exact Hcx]. }
  destruct (Nat.eqb_spec (String.length (P5.key p)) 1) as [Hkey|Hkey].
  { rewrite Hline; simpl. cursor_at.
    - now apply list_lookup_insert_eq.
    - rewrite !string_length_app, length_substring_prefix, Hkey; lia. }
  cursor_at; [exact Hline | exact Hcx].
Qed.

End KeyBranch.

(** ** The column loop of [handleClick] *)

Section ClickLoop.

Variables (p : P5.t) (line : string) (target : Z).

(** The loop leaves at the first boundary at or past the target, or at
    the end of the line; the fuel of [handleClick] is never exhausted
    before that. *)
Lemma clickLoop_spec (fuel : nat) :
  forall c lw,
    lw = prefixWidth p line c ->
    c <= String.length line <= c + fuel ->
    (forall k, k < c -> (prefixWidth p line k < target)%Z) ->
    let r := clickLoop p line target fuel c lw in
    r <= String.length line /\
    (r = String.length line \/ (target <= prefixWidth p line r)%Z) /\
    (forall k, k < r -> (prefixWidth p line k < target)%Z).
Proof.
  induction fuel as [|fuel IH]; intros c lw Hlw Hc Hbelow; simpl.
  - repeat split; [lia | left; lia | exact Hbelow].
  - destruct (Nat.ltb_spec c (String.length line)) as [Hin|Hend]; simpl.
    + destruct (Z.ltb_spec lw target) as [Hlt|Hge].
      * apply IH; [now subst lw | lia |].
        intros k Hk. destruct (decide (k = c)) as [->|Hne].
        -- now subst lw.
        -- apply Hbelow; lia.
      * repeat split; [lia | right; subst lw; lia | exact Hbelow].
    + repeat split; [lia | left; lia | exact Hbelow].
Qed.

Lemma clickLoop_from_start :
  let r := clickLoop p line target (String.length line) 0 0 in
  r <= String.length line /\
  (r = String.length line \/ (target <= prefixWidth p line r)%Z) /\
  (forall k, k < r -> (prefixWidth p line k < target)%Z).
Proof. apply clickLoop_spec; [reflexivity | lia | intros k Hk; lia]. Qed.

End ClickLoop.

(** ** Every operation keeps the cursor invariant *)

Section Preservation.

Lemma updateScroll_nonneg (cy : nat) (lh h s : Z) :
  (0 <= lh)%Z -> (0 <= s)%Z -> (0 <= updateScroll cy lh h s)%Z.
Proof.
  intros Hlh Hs. unfold updateScroll.
  destruct (Z.ltb_spec (Z.of_nat cy * lh) s); [nia|].
  destruct (Z.ltb_spec (s + h) ((Z.of_nat cy + 1) * lh)); lia.
Qed.

Lemma valid_intro (ta : t) (line : string) :
  lines ta !! cursorY ta = Some line ->
  cursorX ta <= String.length line ->
  valid ta.
Proof.
  intros Hline Hcx. pose proof (lookup_lt_Some _ _ _ Hline) as Hlt.
  repeat split; [|exact Hlt|eauto].
  intros Hnil. rewrite Hnil in Hlt. simpl in Hlt. lia.
Qed.

Lemma inside_reflect (p : P5.t) (ta : t) :
  inside p ta <->
  (x ta <? P5.mouseX p)%Z && (P5.mouseX p <? x ta + w ta)%Z &&
  (y ta <? P5.mouseY p)%Z && (P5.mouseY p <? y ta + h ta)%Z = true.
Proof.
  unfold inside. rewrite !andb_true_iff, !Z.ltb_lt. tauto.
Qed.

(** The row a click resolves to. *)
Lemma click_row_in_range (n : Z) (ls : list string) :
  ls <> [] ->
  Z.to_nat (P5.constrain n 0 (Z.of_nat (length ls) - 1)) < length ls.
Proof.
  intros Hne. destruct ls as [|l ls]; [congruence|].
  unfold P5.constrain. simpl length. lia.
Qed.

Lemma handleClick_inside (p : P5.t) (ta : t) :
  inside p ta -> lines ta <> [] ->
  exists ta' line,
    handleClick p ta = Some ta' /\
    isFocused ta' = true /\
    lines ta' = lines ta /\ scrollY ta' = scrollY ta /\
    lineHeight ta' = lineHeight ta /\ h ta' = h ta /\
    cursorY ta' =
      Z.to_nat (P5.constrain
                  ((P5.mouseY p - y ta + scrollY ta) / lineHeight ta) 0
                  (Z.of_nat (length (lines ta)) - 1)) /\
    lines ta !! cursorY ta' = Some line /\
    cursorX ta' =
      clickLoop p line (P5.mouseX p - x ta - 5) (String.length line) 0 0.
Proof.
  intros Hin Hne. apply inside_reflect in Hin.
  unfold handleClick. rewrite Hin.
  set (row := Z.to_nat _).
  destruct (lookup_lt_is_Some_2 (lines ta) row) as [line Hline].
  { apply click_row_in_range, Hne. }
  rewrite Hline; simpl. eexists _, line.
  split; [reflexivity|]. simpl. repeat split; try reflexivity. exact Hline.
Qed.

Lemma handleClick_outside (p : P5.t) (ta : t) :
  ~ inside p ta ->
  exists ta',
    handleClick p ta = Some ta' /\
    isFocused ta' = false /\
    lines ta' = lines ta /\ scrollY ta' = scrollY ta /\
    lineHeight ta' = lineHeight ta /\ h ta' = h ta /\
    cursorX ta' = cursorX ta /\ cursorY ta' = cursorY ta.
Proof.
  intros Hout. rewrite inside_reflect in Hout.
  apply not_true_is_false in Hout.
  unfold handleClick. rewrite Hout.
  eexists; split; [reflexivity|]. simpl. repeat split; reflexivity.
Qed.

Lemma inside_dec (p : P5.t) (ta : t) : {inside p ta} + {~ inside p ta}.
Proof.
  destruct ((x ta <? P5.mouseX p)%Z && (P5.mouseX p <? x ta + w ta)%Z &&
            (y ta <? P5.mouseY p)%Z && (P5.mouseY p <? y ta + h ta)%Z)
    eqn:E.
  - left. now apply inside_reflect.
  - right. rewrite inside_reflect. congruence.
Qed.

Lemma handleClick_valid (p : P5.t) (ta : t) :
  valid ta ->
  exists ta',
    handleClick p ta = Some ta' /\ valid ta' /\
    scrollY ta' = scrollY ta /\ lineHeight ta' = lineHeight ta.
Proof.
  intros (Hne & Hrow & line & Hline & Hcx).
  destruct (inside_dec p ta) as [Hin|Hout].
  - destruct (handleClick_inside p ta Hin Hne)
      as (ta' & l & -> & _ & Hls & Hs & Hlh & _ & _ & Hl & Hx).
    assert (Hv' : valid ta').
    { apply (valid_intro ta' l); [now rewrite Hls|].
      rewrite Hx. apply clickLoop_from_start. }
    exists ta'. auto.
  - destruct (handleClick_outside p ta Hout)
      as (ta' & -> & _ & Hls & Hs & Hlh & _ & Hx & Hy).
    assert (Hv' : valid ta').
    { apply (valid_intro ta' line); [now rewrite Hls, Hy | now rewrite Hx]. }
    exists ta'. auto.
Qed.

(** A focused key press: the key branch, then the scroll update, the
    joined text and the notification. *)
Lemma handleKeyPress_focused (p : P5.t) (ta : t) :
  valid ta -> isFocused ta = true ->
  exists ta',
    handleKeyPress p ta =
      Some (ta', if onInput ta
                 then [Js.join (String Js.nl "") (lines ta')] else []) /\
    keyBranch p (lines ta) (cursorX ta) (cursorY ta) =
      Some (lines ta', cursorX ta', cursorY ta') /\
    text ta' = Js.join (String Js.nl "") (lines ta') /\
    scrollY ta' =
      updateScroll (cursorY ta') (lineHeight ta) (h ta) (scrollY ta) /\
    lineHeight ta' = lineHeight ta /\ h ta' = h ta /\
    isFocused ta' = true /\ onInput ta' = onInput ta /\
    valid ta'.
Proof.
  intros (_ & _ & line & Hline & Hcx) Hfocus.
  destruct (keyBranch_cursor p _ _ _ _ Hline Hcx)
    as (ls' & cx' & cy' & line' & Hkb & Hline' & Hcx').
  unfold handleKeyPress. rewrite Hfocus, Hkb; simpl.
  exists {| x := x ta; y := y ta; w := w ta; h := h ta;
            text := Js.join (String Js.nl "") ls'; lines := ls';
            isFocused := true; onInput := onInput ta;
            cursorX := cx'; cursorY := cy';
            scrollY :=
              updateScroll cy' (lineHeight ta) (h ta) (scrollY ta);
            lineHeight := lineHeight ta |}.
  simpl. do 8 (split; [reflexivity|]).
  now apply (valid_intro _ line').
Qed.

Lemma handleKeyPress_unfocused (p : P5.t) (ta : t) :
  isFocused ta = false -> handleKeyPress p ta = Some (ta, []).
Proof. intros Hf. unfold handleKeyPress. now rewrite Hf. Qed.

Lemma setText_result (s : string) (ta : t) :
  exists ta' last_line,
    setText s ta = Some ta' /\
    text ta' = s /\ lines ta' = Js.split Js.nl s /\
    lines ta' !! (length (lines ta') - 1) = Some last_line /\
    cursorY ta' = length (lines ta') - 1 /\
    cursorX ta' = String.length last_line /\
    scrollY ta' = scrollY ta /\ lineHeight ta' = lineHeight ta.
Proof.
  unfold setText.
  destruct (lookup_lt_is_Some_2 (Js.split Js.nl s)
              (length (Js.split Js.nl s) - 1)) as [l Hl].
  { pose proof (split_not_nil Js.nl s).
    destruct (Js.split Js.nl s); [congruence | simpl; lia]. }
  rewrite Hl; simpl. eexists _, l. split; [reflexivity|]. simpl.
  repeat split; try reflexivity. exact Hl.
Qed.

(** The invariant a step keeps: the cursor invariant, the line height,
    and a scroll offset that is not negative. *)
Lemma step_invariant (o : op) (ta : t) :
  valid ta ->
  exists ta',
    step o ta = Some ta' /\ valid ta' /\
    lineHeight ta' = lineHeight ta /\
    ((0 <= lineHeight ta)%Z -> (0 <= scrollY ta)%Z -> (0 <= scrollY ta')%Z).
Proof.
  intros Hv. destruct o as [p|p|s]; simpl.
  - destruct (isFocused ta) eqn:Hf.
    + destruct (handleKeyPress_focused p ta Hv Hf)
        as (ta' & -> & _ & _ & Hs & Hlh & _ & _ & _ & Hv').
      exists ta'. simpl. split; [reflexivity|].
      split; [exact Hv'|]. split; [exact Hlh|].
      intros H1 H2. rewrite Hs. now apply updateScroll_nonneg.
    + rewrite (handleKeyPress_unfocused p ta Hf). exists ta. simpl. auto.
  - destruct (handleClick_valid p ta Hv) as (ta' & -> & Hv' & Hs & Hlh).
    exists ta'. split; [reflexivity|].
    split; [exact Hv'|]. split; [exact Hlh|].
    intros _ H2. now rewrite Hs.
  - destruct (setText_result s ta)
      as (ta' & l & -> & _ & _ & Hl & Hy & Hx & Hs & Hlh).
    exists ta'. split; [reflexivity|].
    split; [|split; [exact Hlh|intros _ H2; now rewrite Hs]].
    apply (valid_intro ta' l); [now rewrite Hy | now rewrite Hx].
Qed.

Lemma run_invariant (ops : list op) :
  forall ta,
    valid ta ->
    exists ta',
      run ops ta = Some ta' /\ valid ta' /\
      lineHeight ta' = lineHeight ta /\
      ((0 <= lineHeight ta)%Z -> (0 <= scrollY ta)%Z ->
       (0 <= scrollY ta')%Z).
Proof.
  induction ops as [|o ops IH]; intros ta Hv; simpl.
  - exists ta. auto.
  - destruct (step_invariant o ta Hv) as (ta1 & -> & Hv1 & Hlh1 & Hs1).
    simpl. destruct (IH ta1 Hv1) as (ta' & Hrun & Hv' & Hlh' & Hs').
    exists ta'. split; [exact Hrun|]. split; [exact Hv'|].
    split; [congruence|].
    intros H1 H2. apply Hs'; [congruence | auto].
Qed.

Lemma constructor_valid (x y w h : Z) (s : string) :
  valid (constructor x y w h s).
Proof. apply (valid_intro _ s); [reflexivity | simpl; lia]. Qed.

(** Enter at the end of "hello" opens an empty line below it. *)
Example enter_at_end_of_line :
  keyBranch (keyEvent P5.ENTER "Enter") ["hello"] 5 0
    = Some (["hello"; ""], 0, 1).
Proof. reflexivity. Qed.

(** Enter inside a line splits it at the cursor. *)
Example enter_inside_line :
  keyBranch (keyEvent P5.ENTER "Enter") ["ab"; "cdef"; "g"] 1 1
    = Some (["ab"; "c"; "def"; "g"], 0, 2).
Proof. reflexivity. Qed.

End Preservation.

(** ** TextArea: notifications of [handleKeyPress] *)

Section Notifications.

(** Every focused key press on a text area in a valid state calls a
    registered [onInput] once, with the lines joined by line breaks as they
    are after the key branch ran, whatever the key; the [text] field holds
    the same joined text. *)
Lemma handleKeyPress_notifies (p : P5.t) (ta : t) :
  valid ta -> isFocused ta = true ->
  exists ta',
    handleKeyPress p ta =
      Some (ta', if onInput ta
                 then [Js.join (String Js.nl "") (lines ta')] else []) /\
    keyBranch p (lines ta) (cursorX ta) (cursorY ta) =
      Some (lines ta', cursorX ta', cursorY ta') /\
    text ta' = Js.join (String Js.nl "") (lines ta').
Proof.
  intros Hv Hf.
  destruct (handleKeyPress_focused p ta Hv Hf) as (ta' & H1 & H2 & H3 & _).
  exists ta'. auto.
Qed.

(** C1.  [setOnInput] documents its callback as the function to call when
    the content of the text area changes.  A focused text area with a
    registered callback, the lines ["ab"] and the cursor at (0,1) receives
    the left arrow: the cursor moves to (0,0), the lines and the text are
    what they were, and [onInput] is called once, with the unchanged text
    "ab". *)
Theorem arrow_key_calls_onInput :
  handleKeyPress (keyEvent P5.LEFT_ARROW "ArrowLeft")
    (editing 100 100 ["ab"] 1 0 0 true)
  = Some (editing 100 100 ["ab"] 0 0 0 true, ["ab"]).
Proof. vm_compute. reflexivity. Qed.

(** C2, counterexample.  A text area of height 30 without a callback is
    clicked, receives Enter (the scroll offset becomes 10) and is clicked
    on its first row, left of the text: the cursor is at (0,0).  Backspace
    then leaves the lines and the cursor alone and calls nothing, but moves
    the scroll offset from 10 to 0. *)
Lemma backspace_at_start_scrolls :
  exists ta ta',
    run [Click (pointerEvent 10 50 15);
         KeyPress (keyEvent P5.ENTER "Enter");
         Click (pointerEvent 10 3 5)]
      (constructor 0 0 100 30 "") = Some ta /\
    isFocused ta = true /\ cursorX ta = 0 /\ cursorY ta = 0 /\
    handleKeyPress (keyEvent P5.BACKSPACE "Backspace") ta = Some (ta', []) /\
    lines ta' = lines ta /\ cursorX ta' = 0 /\ cursorY ta' = 0 /\
    scrollY ta = 10%Z /\ scrollY ta' = 0%Z.
Proof.
  eexists _, _. split; [vm_compute; reflexivity|].
  do 3 (split; [reflexivity|]). split; [vm_compute; reflexivity|].
  repeat split; reflexivity.
Qed.

(** C2, as amended.  For a focused text area whose cursor is at row 0,
    column 0, Backspace leaves the line sequence and the cursor position
    unchanged, and the scroll offset is re-adjusted for row 0: a positive
    scroll offset becomes 0; otherwise, when the bottom of row 0 lies
    below the viewport ([scrollY + h < lineHeight]), the scroll offset
    becomes [lineHeight - h]; otherwise it is unchanged. *)
Theorem backspace_at_start (p : P5.t) (ta : t) :
  isFocused ta = true -> P5.keyCode p = P5.BACKSPACE ->
  cursorX ta = 0 -> cursorY ta = 0 ->
  exists ta' calls,
    handleKeyPress p ta = Some (ta', calls) /\
    lines ta' = lines ta /\ cursorX ta' = 0 /\ cursorY ta' = 0 /\
    ((0 < scrollY ta)%Z -> scrollY ta' = 0%Z) /\
    ((scrollY ta <= 0)%Z -> (scrollY ta + h ta < lineHeight ta)%Z ->
     scrollY ta' = (lineHeight ta - h ta)%Z) /\
    ((scrollY ta <= 0)%Z -> (lineHeight ta <= scrollY ta + h ta)%Z ->
     scrollY ta' = scrollY ta).
Proof.
  intros Hf Hk Hx Hy.
  unfold handleKeyPress, keyBranch. rewrite Hf, Hk, Hx, Hy. simpl.
  eexists _, _. split; [reflexivity|]. simpl.
  do 3 (split; [reflexivity|]).
  unfold updateScroll.
  destruct (Z.ltb_spec (Z.of_nat 0 * lineHeight ta) (scrollY ta));
    [repeat split; intros; lia|].
  destruct (Z.ltb_spec (scrollY ta + h ta) ((Z.of_nat 0 + 1) * lineHeight ta));
    repeat split; intros; lia.
Qed.

(** C2, witness: Backspace in an empty text area of height 100 scrolled
    to 10. *)
Lemma backspace_at_start_witness :
  exists ta' calls,
    handleKeyPress (keyEvent P5.BACKSPACE "Backspace")
      (editing 100 100 [""] 0 0 10 true) = Some (ta', calls) /\
    lines ta' = [""] /\ cursorX ta' = 0 /\ cursorY ta' = 0 /\
    scrollY ta' = 0%Z.
Proof.
  destruct (backspace_at_start (keyEvent P5.BACKSPACE "Backspace")
              (editing 100 100 [""] 0 0 10 true)
              eq_refl eq_refl eq_refl eq_refl)
    as (ta' & calls & H & Hl & Hx & Hy & Hs & _).
  exists ta', calls. repeat split; try assumption.
  apply Hs. reflexivity.
Defined.

End Notifications.

(** ** TextArea: the column a click resolves to *)

Section HitTest.

(** C3, counterexample.  On the line "hi", with 10 pixels per character
    and the left padding of 5, a click at x = 12 resolves to column 1 and
    a click at x = 16 to column 2. *)
Lemma click_columns_on_hi :
  cursorX <$> handleClick (pointerEvent 10 12 5)
                (editing 100 100 ["hi"] 0 0 0 false) = Some 1 /\
  cursorX <$> handleClick (pointerEvent 10 16 5)
                (editing 100 100 ["hi"] 0 0 0 false) = Some 2.
Proof. split; vm_compute; reflexivity. Qed.

(** C3, as amended.  A click inside the widget resolves to the first
    column whose boundary, the measured width of the characters before
    it, is at or past the target x (the pointer x relative to the widget,
    minus the padding of 5), or to the end of the line when the target
    exceeds the whole width.  On the line "hi" with 10 pixels per
    character this is column 0 up to x = 5, column 1 for x = 12 and for
    x = 15 (the boundary of the first character), and column 2 for
    x = 16. *)
Theorem handleClick_column :
  (forall (p : P5.t) (ta : t),
      inside p ta -> lines ta <> [] ->
      exists ta' line,
        handleClick p ta = Some ta' /\
        lines ta !! cursorY ta' = Some line /\
        cursorX ta' <= String.length line /\
        (cursorX ta' = String.length line \/
         (P5.mouseX p - x ta - 5 <= prefixWidth p line (cursorX ta'))%Z) /\
        (forall k, k < cursorX ta' ->
                   (prefixWidth p line k < P5.mouseX p - x ta - 5)%Z)) /\
  cursorX <$> handleClick (pointerEvent 10 5 5)
                (editing 100 100 ["hi"] 0 0 0 false) = Some 0 /\
  cursorX <$> handleClick (pointerEvent 10 12 5)
                (editing 100 100 ["hi"] 0 0 0 false) = Some 1 /\
  cursorX <$> handleClick (pointerEvent 10 15 5)
                (editing 100 100 ["hi"] 0 0 0 false) = Some 1 /\
  cursorX <$> handleClick (pointerEvent 10 16 5)
                (editing 100 100 ["hi"] 0 0 0 false) = Some 2 /\
  cursorX <$> handleClick (pointerEvent 10 26 5)
                (editing 100 100 ["hi"] 0 0 0 false) = Some 2.
Proof.
  split; [|repeat split; vm_compute; reflexivity].
  intros p ta Hin Hne.
  destruct (handleClick_inside p ta Hin Hne)
    as (ta' & line & He & _ & _ & _ & _ & _ & _ & Hl & Hx).
  exists ta', line. split; [exact He|]. split; [exact Hl|].
  rewrite Hx. apply clickLoop_from_start.
Qed.

(** C3, witness: the click at x = 12 on "hi". *)
Lemma handleClick_column_witness :
  inside (pointerEvent 10 12 5) (editing 100 100 ["hi"] 0 0 0 false) /\
  lines (editing 100 100 ["hi"] 0 0 0 false) <> [] /\
  exists ta' line,
    handleClick (pointerEvent 10 12 5)
      (editing 100 100 ["hi"] 0 0 0 false) = Some ta' /\
    lines (editing 100 100 ["hi"] 0 0 0 false) !! cursorY ta' = Some line /\
    cursorX ta' <= String.length line /\
    (cursorX ta' = String.length line \/
     (P5.mouseX (pointerEvent 10 12 5)
      - x (editing 100 100 ["hi"] 0 0 0 false) - 5
      <= prefixWidth (pointerEvent 10 12 5) line (cursorX ta'))%Z) /\
    (forall k, k < cursorX ta' ->
               (prefixWidth (pointerEvent 10 12 5) line k
                < P5.mouseX (pointerEvent 10 12 5)
                  - x (editing 100 100 ["hi"] 0 0 0 false) - 5)%Z).
Proof.
  assert (Hin : inside (pointerEvent 10 12 5)
                  (editing 100 100 ["hi"] 0 0 0 false)).
  { unfold inside; simpl; lia. }
  assert (Hne : lines (editing 100 100 ["hi"] 0 0 0 false) <> []).
  { simpl; discriminate. }
  split; [exact Hin|]. split; [exact Hne|].
  exact (proj1 handleClick_column (pointerEvent 10 12 5)
           (editing 100 100 ["hi"] 0 0 0 false) Hin Hne).
Defined.

End HitTest.

(** ** TextArea: the initial text *)

Section InitialText.

Lemma split_without_line_break (s : string) :
  (forall i, String.get i s <> Some Js.nl) -> Js.split Js.nl s = [s].
Proof.
  induction s as [|c s IH]; intros Hs; [reflexivity|]. simpl.
  destruct (Ascii.eqb_spec c Js.nl) as [->|Hc].
  - now specialize (Hs 0).
  - rewrite IH; [reflexivity|]. intros i. exact (Hs (S i)).
Qed.

(** An initial text without a line break is its own split. *)
Lemma constructor_lines_single_line (x y w h : Z) (s : string) :
  (forall i, String.get i s <> Some Js.nl) ->
  lines (constructor x y w h s) = Js.split Js.nl s.
Proof. intros Hs. now rewrite split_without_line_break. Qed.

(** C4.  A text area constructed with the initial text "a\nb" holds that
    text as one line; [split] on line breaks, which [setText] stores for
    the same text, gives the two lines "a" and "b". *)
Theorem constructor_keeps_line_breaks :
  lines (constructor 0 0 100 100 (String "a" (String Js.nl "b")))
    = [String "a" (String Js.nl "b")] /\
  Js.split Js.nl (String "a" (String Js.nl "b")) = ["a"; "b"] /\
  lines <$> setText (String "a" (String Js.nl "b"))
              (constructor 0 0 100 100 "") = Some ["a"; "b"] /\
  lines (constructor 0 0 100 100 (String "a" (String Js.nl "b")))
    <> Js.split Js.nl (String "a" (String Js.nl "b")).
Proof. repeat split; try (vm_compute; reflexivity). discriminate. Qed.

End InitialText.

(** ** TextArea: the cursor invariant *)

Section CursorInvariant.

(** C5.  From a state in which the cursor invariant holds, every sequence
    of key presses (character, Enter, Backspace, arrows, any other key),
    clicks and [setText] calls runs without an error and ends in a state
    with [lines] not empty, [cursorY < lines.length] and
    [cursorX <= lines[cursorY].length]. *)
Theorem cursor_invariant (ops : list op) (ta : t) :
  valid ta ->
  exists ta',
    run ops ta = Some ta' /\
    lines ta' <> [] /\
    cursorY ta' < length (lines ta') /\
    exists line, lines ta' !! cursorY ta' = Some line /\
                 cursorX ta' <= String.length line.
Proof.
  intros Hv. destruct (run_invariant ops ta Hv) as (ta' & Hrun & Hv' & _).
  exists ta'. split; [exact Hrun | exact Hv'].
Qed.

(** C5, witness: an editing session on a fresh text area. *)
Lemma cursor_invariant_witness :
  valid (constructor 0 0 100 30 "hi") /\
  exists ta',
    run [Click (pointerEvent 10 50 15);
         KeyPress (keyEvent 88 "x");
         KeyPress (keyEvent P5.ENTER "Enter");
         KeyPress (keyEvent P5.UP_ARROW "ArrowUp");
         KeyPress (keyEvent P5.RIGHT_ARROW "ArrowRight");
         KeyPress (keyEvent P5.BACKSPACE "Backspace");
         KeyPress (keyEvent P5.DOWN_ARROW "ArrowDown");
         KeyPress (keyEvent P5.LEFT_ARROW "ArrowLeft");
         KeyPress (keyEvent P5.BACKSPACE "Backspace");
         SetText (String "a" (String Js.nl "b"));
         Click (pointerEvent 10 16 5)]
      (constructor 0 0 100 30 "hi") = Some ta' /\
    lines ta' <> [] /\
    cursorY ta' < length (lines ta') /\
    exists line, lines ta' !! cursorY ta' = Some line /\
                 cursorX ta' <= String.length line.
Proof.
  assert (Hv : valid (constructor 0 0 100 30 "hi")).
  { split; [discriminate|]. split; [simpl; lia|].
    exists "hi". split; [reflexivity | simpl; lia]. }
  split; [exact Hv|]. apply cursor_invariant. exact Hv.
Defined.

End CursorInvariant.

(** ** TextArea: [setText] and [getText] *)

Section BulkText.

(** C6.  For every string [s], [setText(s)] succeeds and [getText()]
    then returns [s]; the stored lines are [s] split on line breaks, and
    joining them by line breaks gives [s] again; the cursor is on the last
    row, at the end of the last line. *)
Theorem setText_getText (s : string) (ta : t) :
  exists ta' last_line,
    setText s ta = Some ta' /\
    getText ta' = s /\
    lines ta' = Js.split Js.nl s /\
    Js.join (String Js.nl "") (lines ta') = s /\
    cursorY ta' = length (lines ta') - 1 /\
    last (lines ta') = Some last_line /\
    cursorX ta' = String.length last_line.
Proof.
  destruct (setText_result s ta)
    as (ta' & l & He & Ht & Hls & Hl & Hy & Hx & _).
  exists ta', l. split; [exact He|]. split; [exact Ht|].
  split; [exact Hls|]. split; [rewrite Hls; apply join_split|].
  split; [exact Hy|]. split; [|exact Hx].
  rewrite last_lookup. rewrite <- Hl. f_equal. lia.
Qed.

End BulkText.

(** ** TextArea: Backspace at the start of a line *)

Section JoinLines.

Lemma delete_after_insert (ls : list string) :
  forall r v prev cur,
    ls !! r = Some prev -> ls !! S r = Some cur ->
    delete (S r) (<[r := v]> ls) = take r ls ++ v :: drop (S (S r)) ls.
Proof.
  induction ls as [|a ls IH]; intros r v prev cur Hp Hc; [discriminate|].
  destruct r as [|r].
  - destruct ls as [|b ls]; [discriminate | reflexivity].
  - simpl in Hp, Hc. simpl. f_equal. eapply IH; eassumption.
Qed.

(** C7.  In a focused text area with the cursor at column 0 of a row
    below the first, Backspace appends the current line to the previous
    one, removes the current line from the sequence, and puts the cursor
    on the previous row at the former end of that line.  From the lines
    ["ab"; "cd"] with the cursor at (1,0) the result is ["abcd"] with the
    cursor at (0,2). *)
Theorem backspace_joins_lines :
  (forall (p : P5.t) (ta : t) (r : nat) (prev cur : string),
      isFocused ta = true -> P5.keyCode p = P5.BACKSPACE ->
      cursorX ta = 0 -> cursorY ta = S r ->
      lines ta !! r = Some prev -> lines ta !! S r = Some cur ->
      exists ta' calls,
        handleKeyPress p ta = Some (ta', calls) /\
        lines ta' =
          take r (lines ta) ++ (prev +:+ cur) :: drop (S (S r)) (lines ta) /\
        length (lines ta') = length (lines ta) - 1 /\
        cursorX ta' = String.length prev /\
        cursorY ta' = r) /\
  (exists ta' calls,
      handleKeyPress (keyEvent P5.BACKSPACE "Backspace")
        (editing 100 100 ["ab"; "cd"] 0 1 0 false) = Some (ta', calls) /\
      lines ta' = ["abcd"] /\ cursorX ta' = 2 /\ cursorY ta' = 0).
Proof.
  split.
  - intros p ta r prev cur Hf Hk Hx Hy Hp Hc.
    unfold handleKeyPress, keyBranch. rewrite Hf, Hk, Hx, Hy. simpl.
    rewrite Nat.sub_0_r, Hp, Hc. simpl.
    eexists _, _. split; [reflexivity|]. simpl.
    unfold Js.splice_delete.
    rewrite (delete_after_insert _ _ _ _ _ Hp Hc).
    split; [reflexivity|]. split; [|auto].
    rewrite length_app, length_take. simpl. rewrite length_drop.
    pose proof (lookup_lt_Some _ _ _ Hc). lia.
  - eexists _, _. split; [vm_compute; reflexivity|]. auto.
Qed.

(** C7, witness: the lines ["ab"; "cd"] with the cursor at (1,0). *)
Lemma backspace_joins_lines_witness :
  isFocused (editing 100 100 ["ab"; "cd"] 0 1 0 false) = true /\
  P5.keyCode (keyEvent P5.BACKSPACE "Backspace") = P5.BACKSPACE /\
  cursorX (editing 100 100 ["ab"; "cd"] 0 1 0 false) = 0 /\
  cursorY (editing 100 100 ["ab"; "cd"] 0 1 0 false) = 1 /\
  lines (editing 100 100 ["ab"; "cd"] 0 1 0 false) !! 0 = Some "ab" /\
  lines (editing 100 100 ["ab"; "cd"] 0 1 0 false) !! 1 = Some "cd" /\
  exists ta' calls,
    handleKeyPress (keyEvent P5.BACKSPACE "Backspace")
      (editing 100 100 ["ab"; "cd"] 0 1 0 false) = Some (ta', calls) /\
    lines ta' =
      take 0 (lines (editing 100 100 ["ab"; "cd"] 0 1 0 false))
      ++ ("ab" +:+ "cd")
         :: drop 2 (lines (editing 100 100 ["ab"; "cd"] 0 1 0 false)) /\
    length (lines ta')
      = length (lines (editing 100 100 ["ab"; "cd"] 0 1 0 false)) - 1 /\
    cursorX ta' = String.length "ab" /\
    cursorY ta' = 0.
Proof.
  do 6 (split; [reflexivity|]).
  apply (proj1 backspace_joins_lines
           (keyEvent P5.BACKSPACE "Backspace")
           (editing 100 100 ["ab"; "cd"] 0 1 0 false) 0 "ab" "cd");
    reflexivity.
Defined.

End JoinLines.

(** ** TextArea: the scroll offset *)

Section Scroll.

(** C8, counterexample.  A text area of height 30 is clicked and receives
    Enter twice: the cursor is on row 2 and the scroll offset is 30.  A
    click near the top edge then puts the cursor on row 1, whose top, 20,
    is above the viewport, and the scroll offset stays 30. *)
Lemma click_keeps_scroll :
  exists ta ta',
    run [Click (pointerEvent 10 50 15);
         KeyPress (keyEvent P5.ENTER "Enter");
         KeyPress (keyEvent P5.ENTER "Enter")]
      (constructor 0 0 100 30 "") = Some ta /\
    handleClick (pointerEvent 10 50 5) ta = Some ta' /\
    cursorY ta' = 1 /\
    (Z.of_nat (cursorY ta') * lineHeight ta' < scrollY ta)%Z /\
    scrollY ta' = scrollY ta /\
    scrollY ta' <> (Z.of_nat (cursorY ta') * lineHeight ta')%Z.
Proof.
  eexists _, _. split; [vm_compute; reflexivity|].
  split; [vm_compute; reflexivity|]. simpl.
  repeat split; lia.
Qed.

(** C8, as amended.  After every focused key press the scroll offset is
    adjusted from the row of the cursor: when the top of that row,
    [cursorY * lineHeight], is above the viewport it becomes the scroll
    offset; otherwise, when its bottom, [(cursorY + 1) * lineHeight], is
    below the viewport the scroll offset becomes that bottom minus the
    height of the widget; otherwise the scroll offset is unchanged.  A
    click positions the cursor and leaves the scroll offset unchanged.
    Through every sequence of operations the scroll offset stays at or
    above 0. *)
Theorem scroll_policy (p : P5.t) (ta : t) :
  valid ta ->
  (isFocused ta = true ->
   exists ta' calls,
     handleKeyPress p ta = Some (ta', calls) /\
     ((Z.of_nat (cursorY ta') * lineHeight ta < scrollY ta)%Z ->
      scrollY ta' = (Z.of_nat (cursorY ta') * lineHeight ta)%Z) /\
     ((scrollY ta <= Z.of_nat (cursorY ta') * lineHeight ta)%Z ->
      (scrollY ta + h ta < (Z.of_nat (cursorY ta') + 1) * lineHeight ta)%Z ->
      scrollY ta' =
        ((Z.of_nat (cursorY ta') + 1) * lineHeight ta - h ta)%Z) /\
     ((scrollY ta <= Z.of_nat (cursorY ta') * lineHeight ta)%Z ->
      ((Z.of_nat (cursorY ta') + 1) * lineHeight ta <= scrollY ta + h ta)%Z ->
      scrollY ta' = scrollY ta)) /\
  (exists ta', handleClick p ta = Some ta' /\ scrollY ta' = scrollY ta) /\
  (forall ops,
      (0 <= lineHeight ta)%Z -> (0 <= scrollY ta)%Z ->
      exists ta', run ops ta = Some ta' /\ (0 <= scrollY ta')%Z).
Proof.
  intros Hv. split; [|split].
  - intros Hf.
    destruct (handleKeyPress_focused p ta Hv Hf)
      as (ta' & He & _ & _ & Hs & _).
    eexists ta', _. split; [exact He|].
    rewrite Hs. unfold updateScroll.
    destruct (Z.ltb_spec (Z.of_nat (cursorY ta') * lineHeight ta)
                (scrollY ta));
      destruct (Z.ltb_spec (scrollY ta + h ta)
                  ((Z.of_nat (cursorY ta') + 1) * lineHeight ta));
      repeat split; intros; lia.
  - destruct (handleClick_valid p ta Hv) as (ta' & He & _ & Hs & _).
    exists ta'. auto.
  - intros ops Hlh Hs.
    destruct (run_invariant ops ta Hv) as (ta' & Hrun & _ & _ & Hs').
    exists ta'. auto.
Qed.

(** C8, witness: Enter in a text area of height 30, which scrolls by 10,
    and the scroll offset after a session. *)
Lemma scroll_policy_witness :
  valid (editing 100 30 [""] 0 0 0 false) /\
  (exists ta' calls,
      handleKeyPress (keyEvent P5.ENTER "Enter")
        (editing 100 30 [""] 0 0 0 false) = Some (ta', calls) /\
      scrollY ta' = 10%Z) /\
  (exists ta',
      run [KeyPress (keyEvent P5.ENTER "Enter");
           KeyPress (keyEvent P5.ENTER "Enter");
           Click (pointerEvent 10 50 5);
           KeyPress (keyEvent P5.UP_ARROW "ArrowUp")]
        (editing 100 30 [""] 0 0 0 false) = Some ta' /\
      (0 <= scrollY ta')%Z).
Proof.
  assert (Hv : valid (editing 100 30 [""] 0 0 0 false)).
  { split; [discriminate|]. split; [simpl; lia|].
    exists "". split; [reflexivity | simpl; lia]. }
  split; [exact Hv|].
  destruct (scroll_policy (keyEvent P5.ENTER "Enter")
              (editing 100 30 [""] 0 0 0 false) Hv) as (Hkey & _ & Hrun).
  split.
  - destruct (Hkey eq_refl) as (ta' & calls & He & _ & Hdown & _).
    exists ta', calls. split; [exact He|].
    assert (Hy : cursorY ta' = 1).
    { vm_compute in He. injection He as <- _. reflexivity. }
    rewrite Hy in Hdown. simpl in Hdown. apply Hdown; lia.
  - apply Hrun; simpl; lia.
Defined.

End Scroll.

(** ** InputBox: focus *)

Section InputBoxFocus.

(** C9.  An unfocused input box ignores a key event: [handleKeyPress]
    returns the same state and calls no callback.  A focused input box
    that receives Enter becomes unfocused, with its text unchanged.  A
    click outside the bounds of the widget makes it unfocused. *)
Theorem inputBox_focus (p : P5.t) (ib : InputBox.t) :
  (InputBox.isFocused ib = false ->
   InputBox.handleKeyPress p ib = (ib, [])) /\
  (InputBox.isFocused ib = true -> P5.keyCode p = P5.ENTER ->
   InputBox.isFocused (fst (InputBox.handleKeyPress p ib)) = false /\
   InputBox.text (fst (InputBox.handleKeyPress p ib)) = InputBox.text ib) /\
  (~ InputBox.inside p ib ->
   InputBox.isFocused (InputBox.handleClick p ib) = false /\
   InputBox.text (InputBox.handleClick p ib) = InputBox.text ib).
Proof.
  split; [|split].
  - intros Hf. unfold InputBox.handleKeyPress. now rewrite Hf.
  - intros Hf Hk. unfold InputBox.handleKeyPress. rewrite Hf, Hk. simpl.
    split; reflexivity.
  - intros Hout. unfold InputBox.handleClick. simpl.
    split; [|reflexivity].
    apply not_true_is_false. intros Hin. apply Hout.
    unfold InputBox.inside.
    rewrite !andb_true_iff, !Z.ltb_lt in Hin. tauto.
Qed.

(** C9, witness: an input box holding "hi", unfocused and then focused,
    and a click below it. *)
Lemma inputBox_focus_witness :
  InputBox.handleKeyPress (keyEvent 88 "x")
    (InputBox.constructor 0 0 100 20 "hi")
    = (InputBox.constructor 0 0 100 20 "hi", []) /\
  InputBox.isFocused
    (fst (InputBox.handleKeyPress (keyEvent P5.ENTER "Enter")
            (InputBox.handleClick (pointerEvent 10 50 10)
               (InputBox.constructor 0 0 100 20 "hi")))) = false /\
  InputBox.isFocused
    (InputBox.handleClick (pointerEvent 10 50 40)
       (InputBox.handleClick (pointerEvent 10 50 10)
          (InputBox.constructor 0 0 100 20 "hi"))) = false.
Proof.
  split; [|split].
  - apply (proj1 (inputBox_focus (keyEvent 88 "x")
                    (InputBox.constructor 0 0 100 20 "hi"))).
    reflexivity.
  - apply (proj1 (proj2 (inputBox_focus (keyEvent P5.ENTER "Enter")
                           (InputBox.handleClick (pointerEvent 10 50 10)
                              (InputBox.constructor 0 0 100 20 "hi")))));
      reflexivity.
  - apply (proj2 (proj2 (inputBox_focus (pointerEvent 10 50 40)
                           (InputBox.handleClick (pointerEvent 10 50 10)
                              (InputBox.constructor 0 0 100 20 "hi"))))).
    unfold InputBox.inside; simpl; lia.
Defined.

End InputBoxFocus.

(** ** Slider: [setValue] *)

Section SliderValue.

Import Slider.
Local Open Scope Q_scope.



(** A half is rounded up, also below zero. *)
Example Math_round_ties :
  Math_round (5 # 2) = 3%Z /\ Math_round (- (5 # 2)) = (-2)%Z /\
  Math_round (12 # 5) = 2%Z.
Proof. repeat split; reflexivity. Qed.


Lemma truthy_nonzero (q : Q) : truthy q = true <-> ~ q == 0.
Proof.
  unfold truthy. rewrite negb_true_iff.
  destruct (Qeq_bool q 0) eqn:E.
  - apply Qeq_bool_iff in E. split; [discriminate | tauto].
  - split; [|reflexivity]. intros _ Hq. apply Qeq_bool_iff in Hq.
    congruence.
Qed.

Lemma Qle_bool_false (a b : Q) : Qle_bool a b = false -> b < a.
Proof.
  intros H. apply Qnot_le_lt. intros Hle.
  apply Qle_bool_iff in Hle. congruence.
Qed.





End SliderValue.

(** * Further properties of the widgets *)

(** ** Prefixes and suffixes of a string *)

Section Substrings.

Lemma string_app_cons (c : ascii) (a b : string) :
  String c a +:+ b = String c (a +:+ b).
Proof. reflexivity. Qed.

Lemma string_app_assoc (a b c : string) : (a +:+ b) +:+ c = a +:+ b +:+ c.
Proof.
  induction a as [|x a IH]; [reflexivity|].
  rewrite !string_app_cons. now f_equal.
Qed.

Lemma string_app_nil_r (a : string) : a +:+ "" = a.
Proof.
  induction a as [|x a IH]; [reflexivity|].
  rewrite string_app_cons. now f_equal.
Qed.

Lemma substring_whole (s : string) :
  String.substring 0 (String.length s) s = s.
Proof. induction s as [|c s IH]; simpl; [reflexivity | now rewrite IH]. Qed.

Lemma js_substring_prefix (s : string) (n : nat) :
  n <= String.length s -> Js.substring s 0 n = String.substring 0 n s.
Proof.
  intros Hn. unfold Js.substring.
  rewrite Nat.min_0_l, Nat.min_0_l, Nat.max_0_l, Nat.sub_0_r.
  now rewrite Nat.min_l.
Qed.

Lemma js_substring_suffix (s : string) (n : nat) :
  n <= String.length s ->
  Js.substring_from s n = String.substring n (String.length s - n) s.
Proof.
  intros Hn. unfold Js.substring_from, Js.substring.
  rewrite Nat.min_id, (Nat.min_l n) by exact Hn.
  now rewrite Nat.min_l, Nat.max_r.
Qed.

(** The part before the cursor and the part from the cursor on make up
    the line. *)
Lemma prefix_suffix (s : string) :
  forall n,
    n <= String.length s ->
    Js.substring s 0 n +:+ Js.substring_from s n = s.
Proof.
  intros n Hn. rewrite js_substring_prefix, js_substring_suffix by exact Hn.
  revert n Hn. induction s as [|c s IH]; intros [|n] Hn; simpl in *;
    try reflexivity; try lia.
  - now rewrite substring_whole.
  - rewrite string_app_cons, IH by lia. reflexivity.
Qed.

Lemma prefix_of_app (a b : string) :
  Js.substring (a +:+ b) 0 (String.length a) = a.
Proof.
  rewrite js_substring_prefix by (rewrite string_length_app; lia).
  induction a as [|c a IH]; [now destruct b|].
  rewrite string_app_cons. simpl. now rewrite IH.
Qed.

Lemma suffix_of_app (a b : string) :
  Js.substring_from (a +:+ b) (String.length a) = b.
Proof.
  rewrite js_substring_suffix by (rewrite string_length_app; lia).
  induction a as [|c a IH].
  - simpl. rewrite Nat.sub_0_r. apply substring_whole.
  - rewrite string_app_cons. simpl. exact IH.
Qed.

End Substrings.

(** ** TextArea: what each key does to the lines and the cursor *)

Section KeyEffects.

Variables (ls : list string) (cx cy : nat) (line : string).
Hypothesis Hline : ls !! cy = Some line.
Hypothesis Hcx : cx <= String.length line.

Lemma special_false (k : Z) :
  Keys.special k = false ->
  (k =? P5.ENTER)%Z = false /\ (k =? P5.BACKSPACE)%Z = false /\
  (k =? P5.LEFT_ARROW)%Z = false /\ (k =? P5.RIGHT_ARROW)%Z = false /\
  (k =? P5.UP_ARROW)%Z = false /\ (k =? P5.DOWN_ARROW)%Z = false.
Proof.
  unfold Keys.special. rewrite !orb_false_iff. tauto.
Qed.

Lemma splice_after_insert (l : list string) :
  forall i old pre post,
    l !! i = Some old ->
    Js.splice_insert (<[i := pre]> l) (i + 1) post
    = take i l ++ pre :: post :: drop (S i) l.
Proof.
  unfold Js.splice_insert.
  induction l as [|a l IH]; intros i old pre post Hi; [discriminate|].
  destruct i as [|i]; [reflexivity|].
  simpl in Hi. simpl. f_equal. eapply IH; eassumption.
Qed.

Lemma keyBranch_enter (p : P5.t) :
  P5.keyCode p = P5.ENTER ->
  keyBranch p ls cx cy
  = Some (take cy ls ++ Js.substring line 0 cx
                        :: Js.substring_from line cx :: drop (S cy) ls,
          0, cy + 1).
Proof using Hline Hcx.
  intros Hk. unfold keyBranch. rewrite Hk, Hline. simpl.
  now rewrite (splice_after_insert _ _ _ _ _ Hline).
Qed.

Lemma keyBranch_printable (p : P5.t) :
  Keys.printable p ->
  keyBranch p ls cx cy
  = Some (<[cy := Js.substring line 0 cx +:+ P5.key p
                  +:+ Js.substring_from line cx]> ls, cx + 1, cy).
Proof using Hline Hcx.
  intros [Hs Hk]. apply special_false in Hs.
  destruct Hs as (H1 & H2 & H3 & H4 & H5 & H6).
  unfold keyBranch. rewrite H1, H2, H3, H4, H5, H6, Hk, Hline.
  reflexivity.
Qed.

Lemma keyBranch_backspace_in_line (p : P5.t) :
  P5.keyCode p = P5.BACKSPACE -> 0 < cx ->
  keyBranch p ls cx cy
  = Some (<[cy := Js.substring line 0 (cx - 1)
                  +:+ Js.substring_from line cx]> ls, cx - 1, cy).
Proof using Hline Hcx.
  intros Hk Hpos. unfold keyBranch. rewrite Hk, Hline. simpl.
  destruct (Nat.ltb_spec 0 cx); [reflexivity | lia].
Qed.

(** A typed character followed by Backspace. *)
Lemma keyBranch_type_backspace (p1 p2 : P5.t) :
  Keys.printable p1 -> P5.keyCode p2 = P5.BACKSPACE ->
  exists ls1,
    keyBranch p1 ls cx cy = Some (ls1, cx + 1, cy) /\
    keyBranch p2 ls1 (cx + 1) cy = Some (ls, cx, cy).
Proof using Hline Hcx.
  intros Hp Hk. pose proof (lookup_lt_Some _ _ _ Hline) as Hlt.
  eexists. split; [apply keyBranch_printable, Hp|].
  destruct Hp as [_ Hlen].
  set (pre := Js.substring line 0 cx).
  set (post := Js.substring_from line cx).
  assert (Hpre : String.length pre = cx)
    by (apply length_substring_prefix, Hcx).
  unfold keyBranch. rewrite Hk. simpl.
  destruct (Nat.ltb_spec 0 (cx + 1)); [|lia].
  rewrite list_lookup_insert_eq by exact Hlt. simpl.
  rewrite list_insert_insert_eq.
  replace (cx + 1 - 1) with (String.length pre) by lia.
  rewrite prefix_of_app.
  replace (cx + 1) with (String.length (pre +:+ P5.key p1))
    by (rewrite string_length_app; lia).
  rewrite <- string_app_assoc, suffix_of_app.
  unfold pre, post. rewrite prefix_suffix by exact Hcx.
  rewrite list_insert_id by exact Hline.
  now rewrite length_substring_prefix by exact Hcx.
Qed.

Lemma join_after_split (l : list string) :
  forall i old pre post,
    l !! i = Some old ->
    delete (S i)
      (<[i := pre +:+ post]> (take i l ++ pre :: post :: drop (S i) l))
    = <[i := pre +:+ post]> l.
Proof.
  induction l as [|a l IH]; intros i old pre post Hi; [discriminate|].
  destruct i as [|i]; [reflexivity|].
  simpl in Hi. simpl. f_equal. eapply IH; eassumption.
Qed.

Lemma lookup_split_rows (l : list string) :
  forall i old pre post,
    l !! i = Some old ->
    (take i l ++ pre :: post :: drop (S i) l) !! i = Some pre /\
    (take i l ++ pre :: post :: drop (S i) l) !! (S i) = Some post.
Proof.
  induction l as [|a l IH]; intros i old pre post Hi; [discriminate|].
  destruct i as [|i]; [split; reflexivity|].
  simpl in Hi. simpl. eapply IH; eassumption.
Qed.

(** Enter followed by Backspace. *)
Lemma keyBranch_enter_backspace (p1 p2 : P5.t) :
  P5.keyCode p1 = P5.ENTER -> P5.keyCode p2 = P5.BACKSPACE ->
  exists ls1,
    keyBranch p1 ls cx cy = Some (ls1, 0, cy + 1) /\
    keyBranch p2 ls1 0 (cy + 1) = Some (ls, cx, cy).
Proof using Hline Hcx.
  intros H1 H2. eexists. split; [apply keyBranch_enter, H1|].
  destruct (lookup_split_rows ls cy line (Js.substring line 0 cx)
              (Js.substring_from line cx) Hline) as [Hpre Hpost].
  unfold keyBranch. rewrite H2. simpl.
  destruct (Nat.ltb_spec 0 (cy + 1)); [|lia].
  replace (cy + 1 - 1) with cy by lia.
  replace (cy + 1) with (S cy) by lia.
  rewrite Hpre, Hpost. simpl.
  unfold Js.splice_delete.
  rewrite (join_after_split _ _ _ _ _ Hline).
  rewrite prefix_suffix by exact Hcx.
  rewrite list_insert_id by exact Hline.
  rewrite length_substring_prefix by exact Hcx.
  reflexivity.
Qed.

(** Left followed by Right, away from the start of the text. *)
Lemma keyBranch_left_right (p1 p2 : P5.t) :
  P5.keyCode p1 = P5.LEFT_ARROW -> P5.keyCode p2 = P5.RIGHT_ARROW ->
  0 < cx \/ 0 < cy ->
  exists cx1 cy1,
    keyBranch p1 ls cx cy = Some (ls, cx1, cy1) /\
    keyBranch p2 ls cx1 cy1 = Some (ls, cx, cy).
Proof using Hline Hcx.
  intros H1 H2 Hpos. pose proof (lookup_lt_Some _ _ _ Hline) as Hlt.
  unfold keyBranch. rewrite H1, H2. simpl.
  destruct (Nat.ltb_spec 0 cx) as [Hx|Hx].
  - eexists _, _. split; [reflexivity|]. rewrite Hline. simpl.
    destruct (Nat.ltb_spec (cx - 1) (String.length line)); [|lia].
    repeat f_equal; lia.
  - destruct (Nat.ltb_spec 0 cy) as [Hy|Hy]; [|lia].
    destruct (lookup_lt_is_Some_2 ls (cy - 1)) as [prev Hprev]; [lia|].
    rewrite Hprev. simpl. eexists _, _. split; [reflexivity|].
    rewrite Hprev. simpl. rewrite Nat.ltb_irrefl.
    destruct (Z.ltb_spec (Z.of_nat (cy - 1)) (Z.of_nat (length ls) - 1));
      [|lia].
    repeat f_equal; lia.
Qed.

(** Right followed by Left, away from the end of the text. *)
Lemma keyBranch_right_left (p1 p2 : P5.t) :
  P5.keyCode p1 = P5.RIGHT_ARROW -> P5.keyCode p2 = P5.LEFT_ARROW ->
  cx < String.length line \/ cy + 1 < length ls ->
  exists cx1 cy1,
    keyBranch p1 ls cx cy = Some (ls, cx1, cy1) /\
    keyBranch p2 ls cx1 cy1 = Some (ls, cx, cy).
Proof using Hline Hcx.
  intros H1 H2 Hend.
  unfold keyBranch. rewrite H1, H2, Hline. simpl.
  destruct (Nat.ltb_spec cx (String.length line)) as [Hx|Hx].
  - eexists _, _. split; [reflexivity|].
    destruct (Nat.ltb_spec 0 (cx + 1)); [|lia].
    repeat f_equal; lia.
  - destruct (Z.ltb_spec (Z.of_nat cy) (Z.of_nat (length ls) - 1));
      [|lia].
    eexists _, _. split; [reflexivity|]. simpl.
    destruct (Nat.ltb_spec 0 (cy + 1)); [|lia].
    replace (cy + 1 - 1) with cy by lia. rewrite Hline. simpl.
    repeat f_equal; lia.
Qed.

(** Up followed by Down, below the first row. *)
Lemma keyBranch_up_down (p1 p2 : P5.t) (prev : string) :
  P5.keyCode p1 = P5.UP_ARROW -> P5.keyCode p2 = P5.DOWN_ARROW ->
  0 < cy -> ls !! (cy - 1) = Some prev ->
  exists cx1 cy1,
    keyBranch p1 ls cx cy = Some (ls, cx1, cy1) /\
    keyBranch p2 ls cx1 cy1
    = Some (ls, Nat.min cx (String.length prev), cy).
Proof using Hline Hcx.
  intros H1 H2 Hpos Hprev. pose proof (lookup_lt_Some _ _ _ Hline) as Hlt.
  unfold keyBranch. rewrite H1, H2. simpl.
  destruct (Nat.ltb_spec 0 cy); [|lia].
  rewrite Hprev. simpl. eexists _, _. split; [reflexivity|].
  destruct (Z.ltb_spec (Z.of_nat (cy - 1)) (Z.of_nat (length ls) - 1));
    [|lia].
  replace (cy - 1 + 1) with cy by lia. rewrite Hline. simpl.
  now rewrite (Nat.min_l _ (String.length line)) by lia.
Qed.

End KeyEffects.

(** ** TextArea: editing round trips *)

Ltac valid_by_eval :=
  split; [discriminate|]; split; [simpl; lia|];
  eexists; split; [reflexivity | simpl; lia].

Section EditingRoundTrips.

Lemma one_key (p : P5.t) (ta : t) (ls1 : list string) (cx1 cy1 : nat) :
  valid ta -> isFocused ta = true ->
  keyBranch p (lines ta) (cursorX ta) (cursorY ta) = Some (ls1, cx1, cy1) ->
  exists ta',
    run [KeyPress p] ta = Some ta' /\
    lines ta' = ls1 /\ cursorX ta' = cx1 /\ cursorY ta' = cy1 /\
    getText ta' = Js.join (String Js.nl "") ls1 /\
    isFocused ta' = true /\ valid ta'.
Proof.
  intros Hv Hf Hkb.
  destruct (handleKeyPress_focused p ta Hv Hf)
    as (ta' & He & Hkb' & Ht & _ & _ & _ & Hf' & _ & Hv').
  rewrite Hkb in Hkb'. injection Hkb' as H1 H2 H3.
  exists ta'. simpl. rewrite He. simpl.
  split; [reflexivity|]. unfold getText. rewrite Ht, <- H1.
  repeat split; auto; apply Hv'.
Qed.

Lemma two_keys (p1 p2 : P5.t) (ta : t) (ls1 ls2 : list string)
    (cx1 cy1 cx2 cy2 : nat) :
  valid ta -> isFocused ta = true ->
  keyBranch p1 (lines ta) (cursorX ta) (cursorY ta) = Some (ls1, cx1, cy1) ->
  keyBranch p2 ls1 cx1 cy1 = Some (ls2, cx2, cy2) ->
  exists ta',
    run [KeyPress p1; KeyPress p2] ta = Some ta' /\
    lines ta' = ls2 /\ cursorX ta' = cx2 /\ cursorY ta' = cy2 /\
    getText ta' = Js.join (String Js.nl "") ls2 /\
    isFocused ta' = true /\ valid ta'.
Proof.
  intros Hv Hf Hk1 Hk2.
  destruct (one_key p1 ta _ _ _ Hv Hf Hk1)
    as (ta1 & Hr1 & Hl1 & Hx1 & Hy1 & _ & Hf1 & Hv1).
  rewrite <- Hl1, <- Hx1, <- Hy1 in Hk2.
  destruct (one_key p2 ta1 _ _ _ Hv1 Hf1 Hk2) as (ta2 & Hr2 & Hrest).
  exists ta2. split; [|exact Hrest].
  simpl in Hr1 |- *.
  destruct (handleKeyPress p1 ta) as [[ta1' c1]|]; [|discriminate].
  simpl in Hr1 |- *. injection Hr1 as ->. exact Hr2.
Qed.

(** X1.  In every state reached from a constructed text area by key
    presses, clicks and [setText] calls, [getText] returns the lines
    joined by line breaks. *)
Theorem getText_is_joined_lines (x y w h : Z) (s : string) (ops : list op) :
  exists ta',
    run ops (constructor x y w h s) = Some ta' /\
    getText ta' = Js.join (String Js.nl "") (lines ta').
Proof.
  assert (Hgen : forall ops ta,
             valid ta -> text ta = Js.join (String Js.nl "") (lines ta) ->
             exists ta', run ops ta = Some ta' /\
                         text ta' = Js.join (String Js.nl "") (lines ta')).
  { clear. induction ops as [|o ops IH]; intros ta Hv Ht.
    - exists ta. auto.
    - destruct (step_invariant o ta Hv) as (ta1 & He & Hv1 & _).
      simpl. rewrite He. simpl. apply IH; [exact Hv1|].
      destruct o as [p|p|s]; simpl in He.
      + destruct (isFocused ta) eqn:Hf.
        * destruct (handleKeyPress_focused p ta Hv Hf)
            as (ta' & He' & _ & Ht' & _).
          rewrite He' in He. simpl in He. now injection He as <-.
        * rewrite (handleKeyPress_unfocused p ta Hf) in He.
          simpl in He. now injection He as <-.
      + unfold handleClick in He.
        destruct (_ && _); [|injection He as <-; exact Ht].
        destruct (lines ta !! _); [|discriminate].
        simpl in He. injection He as <-. exact Ht.
      + destruct (setText_result s ta) as (ta' & l & He' & Ht' & Hl' & _).
        rewrite He' in He. injection He as <-.
        rewrite Ht', Hl'. symmetry. apply join_split. }
  apply Hgen; [apply constructor_valid | reflexivity].
Qed.

(** X2.  In a focused text area Enter splits the line of the cursor at the
    cursor: the row of the cursor keeps the part before it, the part from
    the cursor on becomes a new row right below, all other rows keep their
    order, and the cursor goes to the start of the new row. *)
Theorem enter_splits_line (p : P5.t) (ta : t) (line : string) :
  isFocused ta = true -> P5.keyCode p = P5.ENTER ->
  lines ta !! cursorY ta = Some line ->
  cursorX ta <= String.length line ->
  exists ta' pre post,
    run [KeyPress p] ta = Some ta' /\
    pre +:+ post = line /\ String.length pre = cursorX ta /\
    lines ta' =
      take (cursorY ta) (lines ta)
      ++ pre :: post :: drop (S (cursorY ta)) (lines ta) /\
    length (lines ta') = S (length (lines ta)) /\
    cursorX ta' = 0 /\ cursorY ta' = cursorY ta + 1.
Proof.
  intros Hf Hk Hl Hx.
  destruct (one_key p ta _ _ _ (valid_intro ta line Hl Hx) Hf
              (keyBranch_enter _ _ _ _ Hl Hx p Hk))
    as (ta' & Hr & Hls & Hcx & Hcy & _).
  exists ta', (Js.substring line 0 (cursorX ta)),
    (Js.substring_from line (cursorX ta)).
  split; [exact Hr|]. split; [now apply prefix_suffix|].
  split; [now apply length_substring_prefix|].
  split; [exact Hls|]. split; [|auto].
  rewrite Hls, length_app, length_take. simpl. rewrite length_drop.
  pose proof (lookup_lt_Some _ _ _ Hl). lia.
Qed.

(** X2, witness: Enter inside "hello". *)
Lemma enter_splits_line_witness :
  exists ta' pre post,
    run [KeyPress (keyEvent P5.ENTER "Enter")]
      (editing 100 100 ["hello"] 2 0 0 false) = Some ta' /\
    pre +:+ post = "hello" /\
    String.length pre = cursorX (editing 100 100 ["hello"] 2 0 0 false) /\
    lines ta' =
      take (cursorY (editing 100 100 ["hello"] 2 0 0 false))
        (lines (editing 100 100 ["hello"] 2 0 0 false))
      ++ pre :: post
           :: drop (S (cursorY (editing 100 100 ["hello"] 2 0 0 false)))
                (lines (editing 100 100 ["hello"] 2 0 0 false)) /\
    length (lines ta')
      = S (length (lines (editing 100 100 ["hello"] 2 0 0 false))) /\
    cursorX ta' = 0 /\
    cursorY ta' = cursorY (editing 100 100 ["hello"] 2 0 0 false) + 1.
Proof.
  apply (enter_splits_line (keyEvent P5.ENTER "Enter")
           (editing 100 100 ["hello"] 2 0 0 false) "hello");
    [reflexivity | reflexivity | reflexivity | simpl; lia].
Defined.

(** X3.  In a focused text area a typed character followed by Backspace
    restores the lines and the cursor. *)
Theorem type_then_backspace (p1 p2 : P5.t) (ta : t) :
  valid ta -> isFocused ta = true ->
  Keys.printable p1 -> P5.keyCode p2 = P5.BACKSPACE ->
  exists ta',
    run [KeyPress p1; KeyPress p2] ta = Some ta' /\
    lines ta' = lines ta /\
    cursorX ta' = cursorX ta /\ cursorY ta' = cursorY ta /\
    getText ta' = Js.join (String Js.nl "") (lines ta).
Proof.
  intros Hv Hf Hp Hk. destruct Hv as (Hne & Hrow & line & Hl & Hx).
  destruct (keyBranch_type_backspace _ _ _ _ Hl Hx p1 p2 Hp Hk)
    as (ls1 & Hk1 & Hk2).
  destruct (two_keys p1 p2 ta _ _ _ _ _ _ (valid_intro ta line Hl Hx) Hf
              Hk1 Hk2) as (ta' & Hr & H1 & H2 & H3 & H4 & _).
  exists ta'. auto.
Qed.

(** X3, witness: "x" typed into "ab" at column 1, then Backspace. *)
Lemma type_then_backspace_witness :
  valid (editing 100 100 ["ab"] 1 0 0 true) /\
  Keys.printable (keyEvent 88 "x") /\
  exists ta',
    run [KeyPress (keyEvent 88 "x");
         KeyPress (keyEvent P5.BACKSPACE "Backspace")]
      (editing 100 100 ["ab"] 1 0 0 true) = Some ta' /\
    lines ta' = lines (editing 100 100 ["ab"] 1 0 0 true) /\
    cursorX ta' = cursorX (editing 100 100 ["ab"] 1 0 0 true) /\
    cursorY ta' = cursorY (editing 100 100 ["ab"] 1 0 0 true) /\
    getText ta'
      = Js.join (String Js.nl "") (lines (editing 100 100 ["ab"] 1 0 0 true)).
Proof.
  assert (Hv : valid (editing 100 100 ["ab"] 1 0 0 true)) by valid_by_eval.
  assert (Hp : Keys.printable (keyEvent 88 "x")) by (split; reflexivity).
  split; [exact Hv|]. split; [exact Hp|].
  apply (type_then_backspace (keyEvent 88 "x")
           (keyEvent P5.BACKSPACE "Backspace")
           (editing 100 100 ["ab"] 1 0 0 true) Hv);
    [reflexivity | exact Hp | reflexivity].
Defined.

(** X4.  In a focused text area Enter followed by Backspace restores the
    lines and the cursor. *)
Theorem enter_then_backspace (p1 p2 : P5.t) (ta : t) :
  valid ta -> isFocused ta = true ->
  P5.keyCode p1 = P5.ENTER -> P5.keyCode p2 = P5.BACKSPACE ->
  exists ta',
    run [KeyPress p1; KeyPress p2] ta = Some ta' /\
    lines ta' = lines ta /\
    cursorX ta' = cursorX ta /\ cursorY ta' = cursorY ta /\
    getText ta' = Js.join (String Js.nl "") (lines ta).
Proof.
  intros Hv Hf H1 H2. destruct Hv as (Hne & Hrow & line & Hl & Hx).
  destruct (keyBranch_enter_backspace _ _ _ _ Hl Hx p1 p2 H1 H2)
    as (ls1 & Hk1 & Hk2).
  destruct (two_keys p1 p2 ta _ _ _ _ _ _ (valid_intro ta line Hl Hx) Hf
              Hk1 Hk2) as (ta' & Hr & E1 & E2 & E3 & E4 & _).
  exists ta'. auto.
Qed.

(** X4, witness: Enter in the middle of the second of three lines. *)
Lemma enter_then_backspace_witness :
  valid (editing 100 100 ["ab"; "cdef"; "g"] 2 1 0 false) /\
  exists ta',
    run [KeyPress (keyEvent P5.ENTER "Enter");
         KeyPress (keyEvent P5.BACKSPACE "Backspace")]
      (editing 100 100 ["ab"; "cdef"; "g"] 2 1 0 false) = Some ta' /\
    lines ta' = lines (editing 100 100 ["ab"; "cdef"; "g"] 2 1 0 false) /\
    cursorX ta' = cursorX (editing 100 100 ["ab"; "cdef"; "g"] 2 1 0 false) /\
    cursorY ta' = cursorY (editing 100 100 ["ab"; "cdef"; "g"] 2 1 0 false) /\
    getText ta'
      = Js.join (String Js.nl "")
          (lines (editing 100 100 ["ab"; "cdef"; "g"] 2 1 0 false)).
Proof.
  assert (Hv : valid (editing 100 100 ["ab"; "cdef"; "g"] 2 1 0 false))
    by valid_by_eval.
  split; [exact Hv|].
  apply (enter_then_backspace (keyEvent P5.ENTER "Enter")
           (keyEvent P5.BACKSPACE "Backspace")
           (editing 100 100 ["ab"; "cdef"; "g"] 2 1 0 false) Hv);
    reflexivity.
Defined.

End EditingRoundTrips.

(** ** TextArea: moving the cursor *)

Section CursorMoves.

(** X5.  In a focused text area whose cursor is not at the very start of
    the text, the left arrow followed by the right arrow returns the cursor
    to where it was; at the start of a row the left arrow goes to the end of
    the row above.  The lines are unchanged. *)
Theorem left_then_right (p1 p2 : P5.t) (ta : t) :
  valid ta -> isFocused ta = true ->
  P5.keyCode p1 = P5.LEFT_ARROW -> P5.keyCode p2 = P5.RIGHT_ARROW ->
  0 < cursorX ta \/ 0 < cursorY ta ->
  exists ta',
    run [KeyPress p1; KeyPress p2] ta = Some ta' /\
    lines ta' = lines ta /\
    cursorX ta' = cursorX ta /\ cursorY ta' = cursorY ta.
Proof.
  intros Hv Hf H1 H2 Hpos. destruct Hv as (Hne & Hrow & line & Hl & Hx).
  destruct (keyBranch_left_right _ _ _ _ Hl Hx p1 p2 H1 H2 Hpos)
    as (cx1 & cy1 & Hk1 & Hk2).
  destruct (two_keys p1 p2 ta _ _ _ _ _ _ (valid_intro ta line Hl Hx) Hf
              Hk1 Hk2) as (ta' & Hr & E1 & E2 & E3 & _).
  exists ta'. auto.
Qed.

(** X5, witness: from the start of the second row. *)
Lemma left_then_right_witness :
  valid (editing 100 100 ["ab"; "cd"] 0 1 0 false) /\
  (0 < cursorX (editing 100 100 ["ab"; "cd"] 0 1 0 false) \/
   0 < cursorY (editing 100 100 ["ab"; "cd"] 0 1 0 false)) /\
  exists ta',
    run [KeyPress (keyEvent P5.LEFT_ARROW "ArrowLeft");
         KeyPress (keyEvent P5.RIGHT_ARROW "ArrowRight")]
      (editing 100 100 ["ab"; "cd"] 0 1 0 false) = Some ta' /\
    lines ta' = lines (editing 100 100 ["ab"; "cd"] 0 1 0 false) /\
    cursorX ta' = cursorX (editing 100 100 ["ab"; "cd"] 0 1 0 false) /\
    cursorY ta' = cursorY (editing 100 100 ["ab"; "cd"] 0 1 0 false).
Proof.
  assert (Hv : valid (editing 100 100 ["ab"; "cd"] 0 1 0 false))
    by valid_by_eval.
  assert (Hpos : 0 < cursorX (editing 100 100 ["ab"; "cd"] 0 1 0 false) \/
                 0 < cursorY (editing 100 100 ["ab"; "cd"] 0 1 0 false))
    by (right; simpl; lia).
  split; [exact Hv|]. split; [exact Hpos|].
  apply (left_then_right (keyEvent P5.LEFT_ARROW "ArrowLeft")
           (keyEvent P5.RIGHT_ARROW "ArrowRight")
           (editing 100 100 ["ab"; "cd"] 0 1 0 false) Hv);
    [reflexivity | reflexivity | reflexivity | exact Hpos].
Defined.

(** X6.  In a focused text area whose cursor is not at the very end of the
    text, the right arrow followed by the left arrow returns the cursor to
    where it was; at the end of a row the right arrow goes to the start of
    the row below.  The lines are unchanged. *)
Theorem right_then_left (p1 p2 : P5.t) (ta : t) (line : string) :
  isFocused ta = true ->
  P5.keyCode p1 = P5.RIGHT_ARROW -> P5.keyCode p2 = P5.LEFT_ARROW ->
  lines ta !! cursorY ta = Some line ->
  cursorX ta <= String.length line ->
  cursorX ta < String.length line \/ cursorY ta + 1 < length (lines ta) ->
  exists ta',
    run [KeyPress p1; KeyPress p2] ta = Some ta' /\
    lines ta' = lines ta /\
    cursorX ta' = cursorX ta /\ cursorY ta' = cursorY ta.
Proof.
  intros Hf H1 H2 Hl Hx Hend.
  destruct (keyBranch_right_left _ _ _ _ Hl Hx p1 p2 H1 H2 Hend)
    as (cx1 & cy1 & Hk1 & Hk2).
  destruct (two_keys p1 p2 ta _ _ _ _ _ _ (valid_intro ta line Hl Hx) Hf
              Hk1 Hk2) as (ta' & Hr & E1 & E2 & E3 & _).
  exists ta'. auto.
Qed.

(** X6, witness: from the end of the first row. *)
Lemma right_then_left_witness :
  exists ta',
    run [KeyPress (keyEvent P5.RIGHT_ARROW "ArrowRight");
         KeyPress (keyEvent P5.LEFT_ARROW "ArrowLeft")]
      (editing 100 100 ["ab"; "cd"] 2 0 0 false) = Some ta' /\
    lines ta' = lines (editing 100 100 ["ab"; "cd"] 2 0 0 false) /\
    cursorX ta' = cursorX (editing 100 100 ["ab"; "cd"] 2 0 0 false) /\
    cursorY ta' = cursorY (editing 100 100 ["ab"; "cd"] 2 0 0 false).
Proof.
  apply (right_then_left (keyEvent P5.RIGHT_ARROW "ArrowRight")
           (keyEvent P5.LEFT_ARROW "ArrowLeft")
           (editing 100 100 ["ab"; "cd"] 2 0 0 false) "ab");
    [reflexivity | reflexivity | reflexivity | reflexivity
    | simpl; lia | right; simpl; lia].
Defined.

(** X7.  In a focused text area whose cursor is below the first row, the up
    arrow followed by the down arrow returns the cursor to its row, and its
    column becomes the smaller of the former column and the length of the
    row above: the column is cut to the shorter row and not restored. *)
Theorem up_then_down (p1 p2 : P5.t) (ta : t) (prev : string) :
  valid ta -> isFocused ta = true ->
  P5.keyCode p1 = P5.UP_ARROW -> P5.keyCode p2 = P5.DOWN_ARROW ->
  0 < cursorY ta -> lines ta !! (cursorY ta - 1) = Some prev ->
  exists ta',
    run [KeyPress p1; KeyPress p2] ta = Some ta' /\
    lines ta' = lines ta /\
    cursorY ta' = cursorY ta /\
    cursorX ta' = Nat.min (cursorX ta) (String.length prev).
Proof.
  intros Hv Hf H1 H2 Hpos Hprev.
  destruct Hv as (Hne & Hrow & line & Hl & Hx).
  destruct (keyBranch_up_down _ _ _ _ Hl Hx p1 p2 prev H1 H2 Hpos Hprev)
    as (cx1 & cy1 & Hk1 & Hk2).
  destruct (two_keys p1 p2 ta _ _ _ _ _ _ (valid_intro ta line Hl Hx) Hf
              Hk1 Hk2) as (ta' & Hr & E1 & E2 & E3 & _).
  exists ta'. auto.
Qed.

(** X7, witness: from column 4 of "world" below "hi" the cursor comes back
    to column 2. *)
Lemma up_then_down_witness :
  valid (editing 100 100 ["hi"; "world"] 4 1 0 false) /\
  exists ta',
    run [KeyPress (keyEvent P5.UP_ARROW "ArrowUp");
         KeyPress (keyEvent P5.DOWN_ARROW "ArrowDown")]
      (editing 100 100 ["hi"; "world"] 4 1 0 false) = Some ta' /\
    lines ta' = lines (editing 100 100 ["hi"; "world"] 4 1 0 false) /\
    cursorY ta' = cursorY (editing 100 100 ["hi"; "world"] 4 1 0 false) /\
    cursorX ta'
      = Nat.min (cursorX (editing 100 100 ["hi"; "world"] 4 1 0 false))
          (String.length "hi").
Proof.
  assert (Hv : valid (editing 100 100 ["hi"; "world"] 4 1 0 false))
    by valid_by_eval.
  split; [exact Hv|].
  apply (up_then_down (keyEvent P5.UP_ARROW "ArrowUp")
           (keyEvent P5.DOWN_ARROW "ArrowDown")
           (editing 100 100 ["hi"; "world"] 4 1 0 false) "hi" Hv);
    [reflexivity | reflexivity | reflexivity | simpl; lia | reflexivity].
Defined.

Ltac same_lines H :=
  repeat match type of H with
         | context [if ?b then _ else _] => destruct b
         | context [?o ≫= _] => destruct o; simpl in H
         end;
  try discriminate; try (now injection H as <- _ _).

Lemma keyBranch_keeps_lines (p : P5.t) (ls ls' : list string)
    (cx cy cx' cy' : nat) :
  Keys.arrow (P5.keyCode p) = true \/
  (Keys.special (P5.keyCode p) = false /\ String.length (P5.key p) <> 1) ->
  keyBranch p ls cx cy = Some (ls', cx', cy') ->
  ls' = ls.
Proof.
  intros Hkey Hkb. unfold keyBranch in Hkb.
  assert (He : (P5.keyCode p =? P5.ENTER)%Z = false /\
               (P5.keyCode p =? P5.BACKSPACE)%Z = false).
  { destruct Hkey as [Ha|[Hs _]].
    - unfold Keys.arrow in Ha. rewrite !orb_true_iff, !Z.eqb_eq in Ha.
      split; apply Z.eqb_neq;
        unfold P5.ENTER, P5.BACKSPACE, P5.LEFT_ARROW, P5.RIGHT_ARROW,
          P5.UP_ARROW, P5.DOWN_ARROW in *; lia.
    - apply special_false in Hs. tauto. }
  destruct He as [He Hb]. rewrite He, Hb in Hkb.
  destruct (P5.keyCode p =? P5.LEFT_ARROW)%Z eqn:EL; [same_lines Hkb|].
  destruct (P5.keyCode p =? P5.RIGHT_ARROW)%Z eqn:ER; [same_lines Hkb|].
  destruct (P5.keyCode p =? P5.UP_ARROW)%Z eqn:EU; [same_lines Hkb|].
  destruct (P5.keyCode p =? P5.DOWN_ARROW)%Z eqn:ED; [same_lines Hkb|].
  destruct (Nat.eqb_spec (String.length (P5.key p)) 1) as [Hone|Hone];
    [|now injection Hkb as <- _ _].
  exfalso. destruct Hkey as [Ha|[_ Hlen]]; [|contradiction].
  unfold Keys.arrow in Ha. rewrite EL, ER, EU, ED in Ha. discriminate.
Qed.

End CursorMoves.

(** ** TextArea: keys that do not edit, and typing *)

Section Typing.

(** X8.  In a focused text area an arrow key, or a key that is neither
    Enter nor Backspace nor an arrow and whose [key] is not a single
    character (Shift, Escape, a function key), leaves the lines as they
    are, and [getText] then returns them joined. *)
Theorem other_keys_keep_lines (p : P5.t) (ta : t) :
  valid ta -> isFocused ta = true ->
  Keys.arrow (P5.keyCode p) = true \/
  (Keys.special (P5.keyCode p) = false /\ String.length (P5.key p) <> 1) ->
  exists ta',
    run [KeyPress p] ta = Some ta' /\
    lines ta' = lines ta /\
    getText ta' = Js.join (String Js.nl "") (lines ta).
Proof.
  intros Hv Hf Hkey.
  destruct (handleKeyPress_focused p ta Hv Hf)
    as (ta' & He & Hkb & Ht & _).
  apply (keyBranch_keeps_lines p _ _ _ _ _ _ Hkey) in Hkb.
  exists ta'. simpl. rewrite He. simpl.
  split; [reflexivity|]. split; [exact Hkb|].
  unfold getText. now rewrite Ht, Hkb.
Qed.

(** X8, witness: Shift in a text area holding two lines. *)
Lemma other_keys_keep_lines_witness :
  valid (editing 100 100 ["ab"; "cd"] 1 1 0 true) /\
  exists ta',
    run [KeyPress (keyEvent 16 "Shift")]
      (editing 100 100 ["ab"; "cd"] 1 1 0 true) = Some ta' /\
    lines ta' = lines (editing 100 100 ["ab"; "cd"] 1 1 0 true) /\
    getText ta'
      = Js.join (String Js.nl "")
          (lines (editing 100 100 ["ab"; "cd"] 1 1 0 true)).
Proof.
  assert (Hv : valid (editing 100 100 ["ab"; "cd"] 1 1 0 true))
    by valid_by_eval.
  split; [exact Hv|].
  apply (other_keys_keep_lines (keyEvent 16 "Shift")
           (editing 100 100 ["ab"; "cd"] 1 1 0 true) Hv);
    [reflexivity|].
  right. split; [reflexivity | simpl; lia].
Defined.

Lemma run_cons (o : op) (ops : list op) (ta : t) :
  run (o :: ops) ta = step o ta ≫= run ops.
Proof. reflexivity. Qed.

Lemma run_one (o : op) (ta ta' : t) :
  run [o] ta = Some ta' -> step o ta = Some ta'.
Proof. simpl. destruct (step o ta); simpl; [auto | discriminate]. Qed.

(** X9.  In a focused text area a sequence of printable keys inserts its
    characters, in order, at the cursor: with the line of the cursor made
    of [a] before the cursor and [c] from the cursor on, the line becomes
    [a], the typed characters, [c]; the cursor ends right after the typed
    characters and the other rows are unchanged. *)
Theorem typing_inserts_at_cursor (ps : list P5.t) :
  forall (ta : t) (a c : string),
    isFocused ta = true ->
    lines ta !! cursorY ta = Some (a +:+ c) ->
    cursorX ta = String.length a ->
    Forall Keys.printable ps ->
    exists ta',
      run (KeyPress <$> ps) ta = Some ta' /\
      lines ta' = <[cursorY ta := a +:+ Keys.typed ps +:+ c]> (lines ta) /\
      cursorX ta' = String.length a + length ps /\
      cursorY ta' = cursorY ta.
Proof.
  induction ps as [|p ps IH]; intros ta a c Hf Hl Hx Hall.
  - exists ta. simpl. rewrite list_insert_id by exact Hl.
    repeat split; auto; lia.
  - apply Forall_cons in Hall. destruct Hall as [Hp Hall].
    assert (Hle : cursorX ta <= String.length (a +:+ c))
      by (rewrite string_length_app; lia).
    assert (Hkb : keyBranch p (lines ta) (cursorX ta) (cursorY ta)
                  = Some (<[cursorY ta := a +:+ P5.key p +:+ c]> (lines ta),
                          cursorX ta + 1, cursorY ta)).
    { rewrite (keyBranch_printable _ _ _ _ Hl Hle p Hp).
      now rewrite Hx, prefix_of_app, suffix_of_app. }
    destruct (one_key p ta _ _ _ (valid_intro ta _ Hl Hle) Hf Hkb)
      as (ta1 & Hr & Hl1 & Hx1 & Hy1 & _ & Hf1 & _).
    apply run_one in Hr.
    pose proof (lookup_lt_Some _ _ _ Hl) as Hlt.
    destruct (IH ta1 (a +:+ P5.key p) c Hf1) as (ta' & Hr' & E1 & E2 & E3).
    { rewrite Hl1, Hy1, list_lookup_insert_eq by exact Hlt.
      now rewrite string_app_assoc. }
    { rewrite Hx1, Hx, string_length_app. destruct Hp as [_ ->].
      reflexivity. }
    { exact Hall. }
    exists ta'. rewrite fmap_cons, run_cons, Hr. simpl.
    split; [exact Hr'|].
    rewrite E1, E2, E3, Hl1, Hy1, list_insert_insert_eq.
    rewrite !string_app_assoc, string_length_app.
    destruct Hp as [_ ->]. repeat split; auto; lia.
Qed.

(** X9, witness: "x" and "y" typed between the "a" and the "b" of "ab". *)
Lemma typing_inserts_at_cursor_witness :
  Forall Keys.printable [keyEvent 88 "x"; keyEvent 89 "y"] /\
  exists ta',
    run (KeyPress <$> [keyEvent 88 "x"; keyEvent 89 "y"])
      (editing 100 100 ["ab"] 1 0 0 false) = Some ta' /\
    lines ta' =
      <[cursorY (editing 100 100 ["ab"] 1 0 0 false) :=
          "a" +:+ Keys.typed [keyEvent 88 "x"; keyEvent 89 "y"] +:+ "b"]>
        (lines (editing 100 100 ["ab"] 1 0 0 false)) /\
    cursorX ta' = String.length "a" + length [keyEvent 88 "x"; keyEvent 89 "y"] /\
    cursorY ta' = cursorY (editing 100 100 ["ab"] 1 0 0 false).
Proof.
  assert (Hall : Forall Keys.printable [keyEvent 88 "x"; keyEvent 89 "y"]).
  { repeat constructor. }
  split; [exact Hall|].
  apply (typing_inserts_at_cursor [keyEvent 88 "x"; keyEvent 89 "y"]
           (editing 100 100 ["ab"] 1 0 0 false) "a" "b");
    [reflexivity | reflexivity | reflexivity | exact Hall].
Defined.

End Typing.

(** ** TextArea: where a click puts the cursor *)

Section ClickPosition.

(** X10.  A click inside a text area with a positive line height puts the
    cursor on the row whose band of [lineHeight] pixels holds the pointer,
    counted from the top of the widget plus the scroll offset; a click
    below the last line goes to the last row. *)
Theorem click_row (p : P5.t) (ta : t) :
  inside p ta -> lines ta <> [] -> (0 < lineHeight ta)%Z ->
  exists ta',
    handleClick p ta = Some ta' /\
    (forall k : nat,
        k < length (lines ta) ->
        (Z.of_nat k * lineHeight ta
         <= P5.mouseY p - y ta + scrollY ta
         < (Z.of_nat k + 1) * lineHeight ta)%Z ->
        cursorY ta' = k) /\
    ((Z.of_nat (length (lines ta)) * lineHeight ta
      <= P5.mouseY p - y ta + scrollY ta)%Z ->
     cursorY ta' = length (lines ta) - 1).
Proof.
  intros Hin Hne Hlh.
  destruct (handleClick_inside p ta Hin Hne)
    as (ta' & line & He & _ & _ & _ & _ & _ & Hy & _).
  exists ta'. split; [exact He|].
  assert (Hlen : 0 < length (lines ta))
    by (destruct (lines ta); [congruence | simpl; lia]).
  set (off := (P5.mouseY p - y ta + scrollY ta)%Z) in *.
  pose proof (Z.div_mod off (lineHeight ta)) as Hdm.
  pose proof (Z.mod_pos_bound off (lineHeight ta) Hlh) as Hmod.
  unfold P5.constrain in Hy. split.
  - intros k Hk Hband.
    assert (off / lineHeight ta = Z.of_nat k)%Z as Hq by nia.
    rewrite Hy, Hq. lia.
  - intros Hbelow.
    assert (Z.of_nat (length (lines ta)) <= off / lineHeight ta)%Z by nia.
    rewrite Hy. lia.
Qed.

(** X10, witness: with a scroll offset of 20, a click 25 pixels below the
    top of the widget is on the third of four rows. *)
Lemma click_row_witness :
  inside (pointerEvent 10 50 25)
    (editing 100 100 ["a"; "b"; "c"; "d"] 0 0 20 false) /\
  exists ta',
    handleClick (pointerEvent 10 50 25)
      (editing 100 100 ["a"; "b"; "c"; "d"] 0 0 20 false) = Some ta' /\
    cursorY ta' = 2.
Proof.
  assert (Hin : inside (pointerEvent 10 50 25)
                  (editing 100 100 ["a"; "b"; "c"; "d"] 0 0 20 false))
    by (unfold inside; simpl; lia).
  split; [exact Hin|].
  destruct (click_row (pointerEvent 10 50 25)
              (editing 100 100 ["a"; "b"; "c"; "d"] 0 0 20 false) Hin)
    as (ta' & He & Hband & _);
    [simpl; discriminate | simpl; lia |].
  exists ta'. split; [exact He|].
  apply Hband; simpl; lia.
Defined.

Lemma prefixWidth_same_measure (p1 p2 : P5.t) (line : string) :
  P5.textWidth p1 = P5.textWidth p2 ->
  forall k, prefixWidth p1 line k = prefixWidth p2 line k.
Proof.
  intros Hw k. induction k as [|k IH]; simpl; [reflexivity|].
  now rewrite IH, Hw.
Qed.

(** X11.  Two clicks inside a text area at the same height, measured with
    the same text measure: the click further to the right never resolves
    to a smaller column. *)
Theorem click_column_monotone (p1 p2 : P5.t) (ta : t) :
  inside p1 ta -> inside p2 ta -> lines ta <> [] ->
  P5.mouseY p1 = P5.mouseY p2 ->
  P5.textWidth p1 = P5.textWidth p2 ->
  (P5.mouseX p1 <= P5.mouseX p2)%Z ->
  exists ta1 ta2,
    handleClick p1 ta = Some ta1 /\ handleClick p2 ta = Some ta2 /\
    cursorY ta1 = cursorY ta2 /\ cursorX ta1 <= cursorX ta2.
Proof.
  intros Hin1 Hin2 Hne Hy Hw Hx.
  destruct (handleClick_inside p1 ta Hin1 Hne)
    as (ta1 & l1 & He1 & _ & _ & _ & _ & _ & Hy1 & Hl1 & Hx1).
  destruct (handleClick_inside p2 ta Hin2 Hne)
    as (ta2 & l2 & He2 & _ & _ & _ & _ & _ & Hy2 & Hl2 & Hx2).
  exists ta1, ta2. split; [exact He1|]. split; [exact He2|].
  assert (Hrow : cursorY ta1 = cursorY ta2) by (rewrite Hy1, Hy2, Hy; auto).
  split; [exact Hrow|].
  rewrite Hrow, Hl2 in Hl1. injection Hl1 as <-.
  pose proof (clickLoop_from_start p1 l2 (P5.mouseX p1 - x ta - 5))
    as (Hle1 & Hstop1 & Hbelow1).
  pose proof (clickLoop_from_start p2 l2 (P5.mouseX p2 - x ta - 5))
    as (Hle2 & Hstop2 & Hbelow2).
  rewrite <- Hx1 in Hle1, Hstop1, Hbelow1.
  rewrite <- Hx2 in Hle2, Hstop2, Hbelow2.
  destruct (Nat.le_gt_cases (cursorX ta1) (cursorX ta2)) as [|Hgt];
    [assumption|].
  exfalso. specialize (Hbelow1 _ Hgt).
  rewrite (prefixWidth_same_measure p1 p2 l2 Hw) in Hbelow1.
  destruct Hstop2 as [Hend|Hpast]; lia.
Qed.

(** X11, witness: clicks at x = 12 and x = 16 on "hi". *)
Lemma click_column_monotone_witness :
  inside (pointerEvent 10 12 5) (editing 100 100 ["hi"] 0 0 0 false) /\
  inside (pointerEvent 10 16 5) (editing 100 100 ["hi"] 0 0 0 false) /\
  exists ta1 ta2,
    handleClick (pointerEvent 10 12 5)
      (editing 100 100 ["hi"] 0 0 0 false) = Some ta1 /\
    handleClick (pointerEvent 10 16 5)
      (editing 100 100 ["hi"] 0 0 0 false) = Some ta2 /\
    cursorY ta1 = cursorY ta2 /\ cursorX ta1 <= cursorX ta2.
Proof.
  assert (Hin1 : inside (pointerEvent 10 12 5)
                   (editing 100 100 ["hi"] 0 0 0 false))
    by (unfold inside; simpl; lia).
  assert (Hin2 : inside (pointerEvent 10 16 5)
                   (editing 100 100 ["hi"] 0 0 0 false))
    by (unfold inside; simpl; lia).
  split; [exact Hin1|]. split; [exact Hin2|].
  apply (click_column_monotone (pointerEvent 10 12 5) (pointerEvent 10 16 5)
           (editing 100 100 ["hi"] 0 0 0 false) Hin1 Hin2);
    [simpl; discriminate | reflexivity | reflexivity | simpl; lia].
Defined.

End ClickPosition.

(** ** InputBox: typing and Backspace *)

Section InputBoxEditing.

Lemma slice_app_char (s : string) (c : ascii) :
  Js.slice_0_m1 (s +:+ String c "") = s.
Proof.
  unfold Js.slice_0_m1. rewrite string_length_app. simpl.
  replace (String.length s + 1 - 1) with (String.length s) by lia.
  induction s as [|a s IH]; [reflexivity|].
  rewrite string_app_cons. simpl. now rewrite IH.
Qed.

(** X12.  In a focused input box Backspace removes exactly the last
    character of the text; on the empty text it leaves the text empty.  In
    both cases [onInput], when registered, is called once with the text
    after the key. *)
Theorem inputBox_backspace (p : P5.t) (ib : InputBox.t) :
  InputBox.isFocused ib = true -> P5.keyCode p = P5.BACKSPACE ->
  (forall s c,
      InputBox.text ib = s +:+ String c "" ->
      InputBox.text (fst (InputBox.handleKeyPress p ib)) = s) /\
  (InputBox.text ib = "" ->
   InputBox.text (fst (InputBox.handleKeyPress p ib)) = "") /\
  InputBox.isFocused (fst (InputBox.handleKeyPress p ib)) = true /\
  snd (InputBox.handleKeyPress p ib)
  = (if InputBox.onInput ib
     then [InputBox.text (fst (InputBox.handleKeyPress p ib))] else []).
Proof.
  intros Hf Hk. unfold InputBox.handleKeyPress. rewrite Hf, Hk. simpl.
  destruct (Nat.ltb_spec 0 (String.length (InputBox.text ib))) as [Hpos|Hz];
    simpl.
  - split; [|split; [|split]]; auto.
    + intros s c Hs. rewrite Hs. apply slice_app_char.
    + intros He. rewrite He in Hpos. simpl in Hpos. lia.
  - split; [|split; [|split]]; auto.
    intros s c Hs. rewrite Hs, string_length_app in Hz. simpl in Hz. lia.
Qed.

(** X12, witness: Backspace in a focused input box holding "hi". *)
Lemma inputBox_backspace_witness :
  InputBox.text
    (fst (InputBox.handleKeyPress (keyEvent P5.BACKSPACE "Backspace")
            (InputBox.with_isFocused true
               (InputBox.constructor 0 0 100 20 "hi")))) = "h".
Proof.
  apply (proj1 (inputBox_backspace (keyEvent P5.BACKSPACE "Backspace")
                  (InputBox.with_isFocused true
                     (InputBox.constructor 0 0 100 20 "hi"))
                  eq_refl eq_refl) "h" "i"%char).
  reflexivity.
Defined.

(** X13.  In a focused input box a sequence of keys that are neither
    Backspace nor Enter and carry a single character appends these
    characters, in order, to the text, and the box stays focused. *)
Theorem inputBox_typing (ps : list P5.t) :
  forall ib : InputBox.t,
    InputBox.isFocused ib = true ->
    Forall (fun p => P5.keyCode p <> P5.BACKSPACE /\
                     P5.keyCode p <> P5.ENTER /\
                     String.length (P5.key p) = 1) ps ->
    InputBox.text
      (foldl (fun ib p => fst (InputBox.handleKeyPress p ib)) ib ps)
    = InputBox.text ib +:+ Keys.typed ps /\
    InputBox.isFocused
      (foldl (fun ib p => fst (InputBox.handleKeyPress p ib)) ib ps) = true.
Proof.
  induction ps as [|p ps IH]; intros ib Hf Hall; simpl.
  - now rewrite string_app_nil_r.
  - apply Forall_cons in Hall. destruct Hall as [(Hb & He & Hlen) Hall].
    assert (Hstep : fst (InputBox.handleKeyPress p ib)
                    = InputBox.with_text (InputBox.text ib +:+ P5.key p) ib).
    { unfold InputBox.handleKeyPress. rewrite Hf. simpl.
      apply Z.eqb_neq in Hb, He. rewrite Hb, He, Hlen. reflexivity. }
    rewrite Hstep.
    destruct (IH (InputBox.with_text (InputBox.text ib +:+ P5.key p) ib))
      as [Ht Hf']; [exact Hf | exact Hall |].
    rewrite Ht, Hf'. simpl. now rewrite string_app_assoc.
Qed.

(** X13, witness: "o" and "k" typed into a focused, empty input box. *)
Lemma inputBox_typing_witness :
  InputBox.text
    (foldl (fun ib p => fst (InputBox.handleKeyPress p ib))
       (InputBox.with_isFocused true (InputBox.constructor 0 0 100 20 ""))
       [keyEvent 79 "o"; keyEvent 75 "k"])
  = InputBox.text
      (InputBox.with_isFocused true (InputBox.constructor 0 0 100 20 ""))
    +:+ Keys.typed [keyEvent 79 "o"; keyEvent 75 "k"].
Proof.
  apply (inputBox_typing [keyEvent 79 "o"; keyEvent 75 "k"]
           (InputBox.with_isFocused true
              (InputBox.constructor 0 0 100 20 "")) eq_refl).
  repeat constructor; discriminate.
Defined.

End InputBoxEditing.

(** ** Doubles: rounding keeps the order and is nearly exact *)

Section DoubleRounding.

Import Double.
Local Open Scope Q_scope.

Lemma pow2_pos (e : Z) : 0 < pow2 e.
Proof. apply Qpower_0_lt. reflexivity. Qed.

Lemma pow2_add (a b : Z) : pow2 (a + b) == pow2 a * pow2 b.
Proof. apply Qpower_plus. discriminate. Qed.

Lemma pow2_le (a b : Z) : (a <= b)%Z -> pow2 a <= pow2 b.
Proof. intros H. apply Qpower_le_compat_l; [exact H | discriminate]. Qed.

Lemma pow2_integer (k : Z) : (0 <= k)%Z -> pow2 k == inject_Z (2 ^ k).
Proof. intros H. unfold pow2. now rewrite Zpower_Qpower. Qed.

Lemma floorLog2_spec (q : Q) :
  0 < q -> pow2 (floorLog2 q) <= q < pow2 (floorLog2 q + 1).
Proof.
  intros Hq. unfold floorLog2.
  destruct q as [n d]. simpl Qnum. simpl Qden.
  assert (Hn : (0 < n)%Z). { unfold Qlt in Hq. simpl in Hq. lia. }
  destruct (Z.log2_spec n Hn) as [Hn1 Hn2].
  destruct (Z.log2_spec (Zpos d) eq_refl) as [Hd1 Hd2].
  pose proof (Z.log2_nonneg n) as Hln.
  pose proof (Z.log2_nonneg (Zpos d)) as Hld.
  set (ln := Z.log2 n) in *. set (ld := Z.log2 (Zpos d)) in *.
  assert (Hpd : 0 < inject_Z (Zpos d)) by reflexivity.
  destruct (Qle_bool (pow2 (ln - ld)) (n # d)) eqn:E.
  - apply Qle_bool_iff in E. split; [exact E|].
    replace (ln - ld + 1)%Z with ((ln + 1) - ld)%Z by lia.
    unfold pow2. rewrite Qpower_minus by discriminate.
    change 2 with (inject_Z 2).
    rewrite <- !Zpower_Qpower by lia.
    rewrite Qmake_Qdiv.
    assert (Hpl : 0 < inject_Z (2 ^ ld)).
    { change 0 with (inject_Z 0). rewrite <- Zlt_Qlt. lia. }
    apply Qlt_shift_div_l; [exact Hpl|].
    assert (X : inject_Z n / inject_Z (Z.pos d) * inject_Z (2 ^ ld)
                == inject_Z n * inject_Z (2 ^ ld) / inject_Z (Z.pos d))
      by (field; discriminate).
    rewrite X. apply Qlt_shift_div_r; [exact Hpd|].
    rewrite <- !inject_Z_mult, <- Zlt_Qlt.
    unfold Z.succ in *. nia.
  - apply Qle_bool_false in E.
    replace (ln - ld - 1 + 1)%Z with (ln - ld)%Z by lia.
    split; [|exact E].
    replace (ln - ld - 1)%Z with (ln - (ld + 1))%Z by lia.
    unfold pow2. rewrite Qpower_minus by discriminate.
    change 2 with (inject_Z 2).
    rewrite <- !Zpower_Qpower by lia.
    rewrite Qmake_Qdiv.
    assert (Hpl : 0 < inject_Z (2 ^ (ld + 1))).
    { change 0 with (inject_Z 0). rewrite <- Zlt_Qlt. lia. }
    apply Qle_shift_div_r; [exact Hpl|].
    assert (X : inject_Z n / inject_Z (Z.pos d) * inject_Z (2 ^ (ld + 1))
                == inject_Z n * inject_Z (2 ^ (ld + 1)) / inject_Z (Z.pos d))
      by (field; discriminate).
    rewrite X. apply Qle_shift_div_l; [exact Hpd|].
    rewrite <- !inject_Z_mult, <- Zle_Qle.
    unfold Z.succ in *. nia.
Qed.

Lemma floorLog2_mono (a b : Q) :
  0 < a -> a <= b -> (floorLog2 a <= floorLog2 b)%Z.
Proof.
  intros Ha Hab.
  destruct (floorLog2_spec a Ha) as [Ha1 _].
  destruct (floorLog2_spec b) as [_ Hb2]; [lra|].
  destruct (Z_lt_le_dec (floorLog2 b) (floorLog2 a)) as [Hlt|Hge];
    [|exact Hge].
  assert (pow2 (floorLog2 b + 1) <= pow2 (floorLog2 a))
    by (apply pow2_le; lia).
  lra.
Qed.

Lemma roundHalfEven_floor (q : Q) :
  (Qfloor q <= roundHalfEven q <= Qfloor q + 1)%Z.
Proof.
  unfold roundHalfEven.
  destruct (Qcompare _ _); [destruct (Z.even _)| |]; lia.
Qed.

Lemma roundHalfEven_mono (a b : Q) :
  a <= b -> (roundHalfEven a <= roundHalfEven b)%Z.
Proof.
  intros Hab.
  pose proof (Qfloor_resp_le a b Hab) as Hf.
  pose proof (roundHalfEven_floor a) as Ha.
  pose proof (roundHalfEven_floor b) as Hb.
  destruct (Z_lt_le_dec (Qfloor a) (Qfloor b)) as [Hlt|Hge]; [lia|].
  assert (E : Qfloor a = Qfloor b) by lia.
  clear Ha Hb. unfold roundHalfEven. rewrite E.
  destruct (Qcompare_spec (a - inject_Z (Qfloor b)) (1 # 2)) as [H1|H1|H1];
    destruct (Qcompare_spec (b - inject_Z (Qfloor b)) (1 # 2)) as [H2|H2|H2];
    try destruct (Z.even (Qfloor b)); try lia; exfalso; lra.
Qed.

Lemma roundHalfEven_integer (n : Z) : roundHalfEven (inject_Z n) = n.
Proof.
  unfold roundHalfEven. rewrite Qfloor_Z.
  destruct (Qcompare_spec (inject_Z n - inject_Z n) (1 # 2)) as [H|H|H];
    [exfalso; lra | reflexivity | exfalso; lra].
Qed.

Lemma roundHalfEven_half (q : Q) :
  Qabs (q - inject_Z (roundHalfEven q)) <= 1 # 2.
Proof.
  pose proof (Qfloor_le q) as Hlo.
  pose proof (Qlt_floor q) as Hhi.
  rewrite inject_Z_plus in Hhi. change (inject_Z 1) with 1 in Hhi.
  unfold roundHalfEven.
  destruct (Qcompare_spec (q - inject_Z (Qfloor q)) (1 # 2)) as [H|H|H];
    [destruct (Z.even (Qfloor q))| |];
    rewrite ?inject_Z_plus; change (inject_Z 1) with 1;
    set (f := inject_Z _) in *; apply Qabs_Qle_condition; split; lra.
Qed.

(** A multiple of the last place bounds the rounded number as it bounds
    the number. *)
Lemma roundPos_le_grid (q : Q) (m : Z) :
  q <= inject_Z m * pow2 (ulpExponent q) ->
  roundPos q <= inject_Z m * pow2 (ulpExponent q).
Proof.
  intros H. unfold roundPos.
  pose proof (pow2_pos (ulpExponent q)) as Hp.
  apply Qmult_le_compat_r; [|lra].
  rewrite <- Zle_Qle. rewrite <- (roundHalfEven_integer m).
  apply roundHalfEven_mono. apply Qle_shift_div_r; assumption.
Qed.

Lemma roundPos_ge_grid (q : Q) (m : Z) :
  inject_Z m * pow2 (ulpExponent q) <= q ->
  inject_Z m * pow2 (ulpExponent q) <= roundPos q.
Proof.
  intros H. unfold roundPos.
  pose proof (pow2_pos (ulpExponent q)) as Hp.
  apply Qmult_le_compat_r; [|lra].
  rewrite <- Zle_Qle. rewrite <- (roundHalfEven_integer m) at 1.
  apply roundHalfEven_mono. apply Qle_shift_div_l; assumption.
Qed.

Lemma pow2_grid (k e : Z) :
  (e <= k)%Z -> pow2 k == inject_Z (2 ^ (k - e)) * pow2 e.
Proof.
  intros H. rewrite <- pow2_integer by lia. rewrite <- pow2_add.
  now replace (k - e + e)%Z with k by lia.
Qed.

Lemma roundPos_nonneg (q : Q) : 0 <= q -> 0 <= roundPos q.
Proof.
  intros H.
  assert (E : inject_Z 0 * pow2 (ulpExponent q) == 0)
    by (change (inject_Z 0) with 0; lra).
  pose proof (roundPos_ge_grid q 0) as Hg. rewrite E in Hg. auto.
Qed.

Lemma roundPos_mono (a b : Q) :
  0 < a -> a <= b -> roundPos a <= roundPos b.
Proof.
  intros Ha Hab.
  assert (Hb : 0 < b) by lra.
  pose proof (floorLog2_mono a b Ha Hab) as Hf.
  destruct (floorLog2_spec a Ha) as [_ Ha2].
  destruct (floorLog2_spec b Hb) as [Hb1 _].
  destruct (Z.eq_dec (ulpExponent a) (ulpExponent b)) as [E|Hne].
  - unfold roundPos. rewrite E.
    pose proof (pow2_pos (ulpExponent b)) as Hp.
    apply Qmult_le_compat_r; [|lra].
    rewrite <- Zle_Qle. apply roundHalfEven_mono.
    apply Qmult_le_compat_r; [exact Hab|].
    apply Qinv_le_0_compat. lra.
  - assert (Hlt : (floorLog2 a < floorLog2 b)%Z)
      by (unfold ulpExponent in Hne; lia).
    assert (Hea : (ulpExponent a <= floorLog2 b)%Z)
      by (unfold ulpExponent in *; lia).
    assert (Heb : (ulpExponent b <= floorLog2 b)%Z)
      by (unfold ulpExponent in *; lia).
    apply Qle_trans with (pow2 (floorLog2 b)).
    + rewrite (pow2_grid _ _ Hea). apply roundPos_le_grid.
      rewrite <- (pow2_grid _ _ Hea).
      assert (pow2 (floorLog2 a + 1) <= pow2 (floorLog2 b))
        by (apply pow2_le; lia).
      lra.
    + rewrite (pow2_grid _ _ Heb). apply roundPos_ge_grid.
      rewrite <- (pow2_grid _ _ Heb). exact Hb1.
Qed.

Lemma double_pos (q : Q) : 0 < q -> double q == roundPos q.
Proof.
  intros H. unfold double. destruct q as [[|n|n] d]; simpl Qnum.
  - discriminate H.
  - apply Qred_correct.
  - discriminate H.
Qed.

Lemma double_neg (q : Q) : q < 0 -> double q == - roundPos (- q).
Proof.
  intros H. unfold double. destruct q as [[|n|n] d]; simpl Qnum.
  - discriminate H.
  - discriminate H.
  - apply Qred_correct.
Qed.

Lemma double_zero (q : Q) : q == 0 -> double q = 0.
Proof.
  intros H. unfold double. destruct q as [[|n|n] d]; simpl Qnum.
  - reflexivity.
  - discriminate H.
  - discriminate H.
Qed.

(** Rounding to the nearest double keeps the order. *)
Lemma double_mono (a b : Q) : a <= b -> double a <= double b.
Proof.
  intros Hab.
  destruct (Q_dec a 0) as [[Ha|Ha]|Ha]; destruct (Q_dec b 0) as [[Hb|Hb]|Hb];
    try (exfalso; lra).
  - rewrite (double_neg a Ha), (double_neg b Hb).
    assert (roundPos (- b) <= roundPos (- a))
      by (apply roundPos_mono; lra).
    lra.
  - rewrite (double_neg a Ha), (double_pos b Hb).
    assert (0 <= roundPos (- a)) by (apply roundPos_nonneg; lra).
    assert (0 <= roundPos b) by (apply roundPos_nonneg; lra).
    lra.
  - rewrite (double_neg a Ha), (double_zero b Hb).
    assert (0 <= roundPos (- a)) by (apply roundPos_nonneg; lra).
    lra.
  - rewrite (double_pos a Ha), (double_pos b Hb).
    now apply roundPos_mono.
  - rewrite (double_zero a Ha), (double_pos b Hb).
    apply roundPos_nonneg. lra.
  - rewrite (double_zero a Ha), (double_zero b Hb). apply Qle_refl.
Qed.


Lemma double_nonneg (q : Q) : 0 <= q -> 0 <= double q.
Proof. intros H. apply (double_mono 0 q H). Qed.

Lemma double_nonpos (q : Q) : q <= 0 -> double q <= 0.
Proof. intros H. apply (double_mono q 0 H). Qed.

(** Away from the subnormal numbers the rounding error is at most
    [2^-53] of the number. *)
Lemma roundPos_error (q : Q) :
  pow2 (-1022) <= q -> Qabs (roundPos q - q) <= q * pow2 (-53).
Proof.
  intros Hq.
  pose proof (pow2_pos (-1022)) as H0.
  assert (Hpos : 0 < q) by lra.
  destruct (floorLog2_spec q Hpos) as [Hf1 Hf2].
  assert (Hf : (-1022 <= floorLog2 q)%Z).
  { destruct (Z_lt_le_dec (floorLog2 q) (-1022)) as [Hlt|Hge]; [|exact Hge].
    assert (pow2 (floorLog2 q + 1) <= pow2 (-1022)) by (apply pow2_le; lia).
    exfalso; lra. }
  assert (He : ulpExponent q = (floorLog2 q - 52)%Z)
    by (unfold ulpExponent; lia).
  unfold roundPos. rewrite He.
  remember (floorLog2 q - 52)%Z as e eqn:Ee.
  pose proof (pow2_pos e) as Hp.
  pose proof (roundHalfEven_half (q / pow2 e)) as Hr.
  set (k := inject_Z (roundHalfEven (q / pow2 e))) in *.
  assert (E : k * pow2 e - q == - (q / pow2 e - k) * pow2 e)
    by (field; lra).
  rewrite E, Qabs_Qmult, Qabs_opp, (Qabs_pos (pow2 e)) by lra.
  assert (Hm : Qabs (q / pow2 e - k) * pow2 e <= (1 # 2) * pow2 e)
    by (apply Qmult_le_compat_r; [exact Hr | lra]).
  assert (Hs : pow2 (floorLog2 q) == pow2 52 * pow2 e).
  { rewrite <- pow2_add. now replace (52 + e)%Z with (floorLog2 q) by lia. }
  change (pow2 52) with (inject_Z 4503599627370496) in Hs.
  change (pow2 (-53)) with (1 # 9007199254740992).
  set (P := pow2 e) in *. set (F := pow2 (floorLog2 q)) in *.
  apply Qle_trans with ((1 # 2) * P); [exact Hm|].
  assert (X : q * (1 # 9007199254740992)
              == (q - inject_Z 4503599627370496 * P)
                 * (1 # 9007199254740992) + (1 # 2) * P) by (simpl; field).
  rewrite X.
  assert (0 <= (q - inject_Z 4503599627370496 * P)
               * (1 # 9007199254740992)).
  { apply Qmult_le_0_compat; [lra | discriminate]. }
  lra.
Qed.

Lemma double_error (q : Q) :
  pow2 (-1022) <= Qabs q -> Qabs (double q - q) <= Qabs q * pow2 (-53).
Proof.
  intros Hq.
  pose proof (pow2_pos (-1022)) as H0.
  destruct (Q_dec q 0) as [[Hn|Hp]|Hz].
  - rewrite (double_neg q Hn).
    rewrite (Qabs_neg q) in * by lra.
    assert (E : - roundPos (- q) - q == - (roundPos (- q) - - q)) by ring.
    rewrite E, Qabs_opp. now apply roundPos_error.
  - rewrite (double_pos q Hp).
    rewrite (Qabs_pos q) in * by lra.
    now apply roundPos_error.
  - rewrite Hz in Hq. change (Qabs 0) with 0 in Hq. exfalso; lra.
Qed.


Lemma Qabs_div_le (a b c : Q) :
  ~ b == 0 -> Qabs a <= c * Qabs b -> Qabs (a / b) <= c.
Proof.
  intros Hb H. unfold Qdiv. rewrite Qabs_Qmult, Qabs_Qinv.
  apply Qle_shift_div_r; [|exact H].
  destruct (Q_dec b 0) as [[Hn|Hp]|Hz]; [| |contradiction].
  - rewrite Qabs_neg; lra.
  - rewrite Qabs_pos; lra.
Qed.

Lemma Math_round_near (r : Q) (n : Z) :
  Qabs (r - inject_Z n) < 1 # 2 -> Slider.Math_round r = n.
Proof.
  intros H. unfold Slider.Math_round.
  assert (H1 : - (1 # 2) < r - inject_Z n < 1 # 2).
  { revert H. apply Qabs_case; intros; lra. }
  pose proof (Qfloor_le (r + (1 # 2))) as Hlo.
  pose proof (Qlt_floor (r + (1 # 2))) as Hhi.
  set (f := Qfloor _) in *.
  assert (H2 : (f < n + 1)%Z).
  { rewrite Zlt_Qlt, inject_Z_plus. change (inject_Z 1) with 1. lra. }
  assert (H3 : (n < f + 1)%Z).
  { rewrite Zlt_Qlt. rewrite inject_Z_plus in *.
    change (inject_Z 1) with 1 in *. lra. }
  lia.
Qed.

(** Dividing the double product of a whole number of steps by the step
    gives back the number of steps, when the step is a normal double and
    the product is at most [2^49] steps from zero. *)
Lemma step_round_trip (st : Q) (n : Z) :
  pow2 (-1022) <= Qabs st ->
  Qabs (mul (inject_Z n) st) <= pow2 49 * Qabs st ->
  Slider.Math_round (div (mul (inject_Z n) st) st) = n.
Proof.
  intros Hst Hm.
  pose proof (pow2_pos (-1022)) as H0.
  assert (Hnz : ~ st == 0).
  { intros Hz. rewrite Hz in Hst. change (Qabs 0) with 0 in Hst. lra. }
  destruct (Z.eq_dec n 0%Z) as [->|Hn].
  - unfold mul, div. rewrite (double_zero (inject_Z 0 * st)) by ring.
    rewrite (double_zero (0 / st)) by (field; exact Hnz). reflexivity.
  - unfold mul, div in *.
    set (nn := inject_Z n) in *.
    assert (HA : 1 <= Qabs nn).
    { destruct (Z_lt_le_dec n 0) as [Hlt|Hge].
      - apply Qle_trans with (- nn); [|rewrite <- Qabs_opp; apply Qle_Qabs].
        unfold nn. change 1 with (inject_Z 1).
        rewrite <- inject_Z_opp, <- Zle_Qle. lia.
      - apply Qle_trans with nn; [|apply Qle_Qabs].
        unfold nn. change 1 with (inject_Z 1). rewrite <- Zle_Qle. lia. }
    assert (Hprod : pow2 (-1022) <= Qabs (nn * st)).
    { rewrite Qabs_Qmult.
      assert (0 <= (Qabs nn - 1) * Qabs st)
        by (apply Qmult_le_0_compat; lra).
      lra. }
    pose proof (double_error (nn * st) Hprod) as H1.
    set (m := double (nn * st)) in *.
    assert (Hd : Qabs (m / st - nn) <= Qabs nn * pow2 (-53)).
    { assert (E : m / st - nn == (m - nn * st) / st) by (field; exact Hnz).
      rewrite E. apply Qabs_div_le; [exact Hnz|].
      rewrite Qabs_Qmult in H1. lra. }
    assert (Hy : Qabs (m / st) <= pow2 49)
      by (apply Qabs_div_le; assumption).
    pose proof (Qabs_triangle_reverse (m / st) (m / st - nn)) as Ht.
    assert (E : m / st - (m / st - nn) == nn) by ring.
    rewrite E in Ht. clear E.
    pose proof (Qabs_triangle_reverse nn (nn - m / st)) as Ht'.
    assert (E : nn - (nn - m / st) == m / st) by ring.
    rewrite E in Ht'. clear E.
    assert (E : Qabs (nn - m / st) == Qabs (m / st - nn)).
    { rewrite <- Qabs_opp. apply Qabs_wd. ring. }
    rewrite E in Ht'. clear E.
    change (pow2 (-53)) with (1 # 9007199254740992) in *.
    change (pow2 49) with (562949953421312 # 1) in *.
    change (pow2 (-1022)) with (Qpower 2 (-1022)) in *.
    assert (Hy1 : pow2 (-1022) <= Qabs (m / st)).
    { assert (pow2 (-1022) <= 1 # 2) by (apply (pow2_le (-1022) (-1)); lia).
      unfold pow2 in *. lra. }
    pose proof (double_error (m / st) Hy1) as H2.
    change (pow2 (-53)) with (1 # 9007199254740992) in *.
    set (r := double (m / st)) in *.
    apply Math_round_near. fold nn.
    pose proof (Qabs_triangle (r - m / st) (m / st - nn)) as Ht2.
    assert (E : r - m / st + (m / st - nn) == r - nn) by ring.
    rewrite E in Ht2. clear E.
    set (A := Qabs nn) in *. set (Y := Qabs (m / st)) in *.
    set (D := Qabs (m / st - nn)) in *. set (R := Qabs (r - m / st)) in *.
    lra.
Qed.

(** The double nearest to 0.1, the sum 0.1 + 0.2, which is
    0.30000000000000004, and the quotients 0.15 / 0.1 and 0.25 / 0.1, which
    are 1.4999999999999998 and 2.5. *)
Example double_values :
  double (1 # 10) = 3602879701896397 # 36028797018963968 /\
  add (double (1 # 10)) (double (2 # 10))
  = 1351079888211149 # 4503599627370496 /\
  div (double (15 # 100)) (double (1 # 10))
  = 6755399441055743 # 4503599627370496 /\
  div (1 # 4) (double (1 # 10)) = 5 # 2.
Proof. repeat split; vm_compute; reflexivity. Qed.

End DoubleRounding.

(** ** Slider: dragging *)

Section SliderDrag.

Import Slider.
Local Open Scope Q_scope.

Lemma constrain_cases (n lo hi : Q) :
  constrain n lo hi = n \/ constrain n lo hi = lo \/ constrain n lo hi = hi.
Proof.
  unfold constrain, Math_max, Math_min.
  destruct (Qle_bool n hi); destruct (Qle_bool lo _); auto.
Qed.

Lemma constrain_inside (n lo hi : Q) :
  lo <= n <= hi -> constrain n lo hi = n.
Proof.
  intros [Hlo Hhi]. unfold constrain, Math_max, Math_min.
  apply Qle_bool_iff in Hhi. rewrite Hhi.
  apply Qle_bool_iff in Hlo. now rewrite Hlo.
Qed.

Lemma constrain_mono (a b lo hi : Q) :
  a <= b -> constrain a lo hi <= constrain b lo hi.
Proof.
  intros Hab. unfold constrain, Math_max, Math_min.
  destruct (Qle_bool a hi) eqn:E1; destruct (Qle_bool b hi) eqn:E2;
    try apply Qle_bool_iff in E1; try apply Qle_bool_iff in E2;
    try apply Qle_bool_false in E1; try apply Qle_bool_false in E2;
    match goal with
    | |- (if Qle_bool lo ?u then _ else _) <= (if Qle_bool lo ?v then _ else _) =>
        destruct (Qle_bool lo u) eqn:E3; destruct (Qle_bool lo v) eqn:E4;
        try apply Qle_bool_iff in E3; try apply Qle_bool_iff in E4;
        try apply Qle_bool_false in E3; try apply Qle_bool_false in E4
    end; lra.
Qed.

Lemma Math_round_mono (a b : Q) :
  a <= b -> (Math_round a <= Math_round b)%Z.
Proof. intros Hab. unfold Math_round. apply Qfloor_resp_le. lra. Qed.

Lemma Math_round_integer (n : Z) : Math_round (inject_Z n) = n.
Proof.
  unfold Math_round.
  pose proof (Qfloor_le (inject_Z n + (1 # 2))) as Hlo.
  pose proof (Qlt_floor (inject_Z n + (1 # 2))) as Hhi.
  set (f := Qfloor _) in *.
  assert (H1 : (f <= n)%Z).
  { apply Z.lt_succ_r. rewrite Zlt_Qlt. unfold Z.succ.
    rewrite inject_Z_plus. change (inject_Z 1) with 1. lra. }
  assert (H2 : (n <= f)%Z).
  { apply Z.lt_succ_r. rewrite Zlt_Qlt. unfold Z.succ.
    rewrite inject_Z_plus in *. change (inject_Z 1) with 1 in *. lra. }
  lia.
Qed.






(** [setValue(0.15)] with the step 0.1 stores 0.1; [setValue(0.57)] with
    the step 0.01 stores 0.5700000000000001; a drag to x = 29 on a slider
    of length 200 over [0, 1], whose step is 0.01, gives 0.14. *)
Example slider_values :
  getValue (fst (setValue (Double.double (15 # 100))
                   (constructor 0 0 200 0 1 0 false
                      (Some (Double.double (1 # 10))) "" false)))
  = Double.double (1 # 10) /\
  getValue (fst (setValue (Double.double (57 # 100))
                   (constructor 0 0 200 0 1 0 false
                      (Some (Double.double (1 # 100))) "" false)))
  = 2567051787601183 # 4503599627370496 /\
  getValue (fst (handleDrag (pointer 29 10)
                   (with_isDragging true
                      (constructor 0 0 200 0 1 0 false None "" false))))
  = Double.double (14 # 100).
Proof. repeat split; vm_compute; reflexivity. Qed.

(** X16.  When the value stored by [setValue(v)] lies strictly between
    [min] and [max], setting the slider to the value it holds changes
    nothing.  This holds on an integer slider and on a slider whose step
    is zero; on a slider with another step it holds when the step is a
    normal double, at least [2^-1022] in magnitude, and the stored value is
    at most [2^49] steps from zero. *)
Theorem setValue_own_value (v : Q) (s : Slider.t) :
  min s < getValue (fst (setValue v s)) < max s ->
  (isInteger s = false -> ~ step s == 0 ->
   Double.pow2 (-1022) <= Qabs (step s) /\
   Qabs (getValue (fst (setValue v s))) <= Double.pow2 49 * Qabs (step s)) ->
  getValue (fst (setValue (getValue (fst (setValue v s)))
                   (fst (setValue v s))))
  = getValue (fst (setValue v s)).
Proof.
  unfold setValue, getValue. simpl. intros [Hlo Hhi] Hstep.
  assert (Hq : constrain (quantize s v) (min s) (max s) = quantize s v).
  { destruct (constrain_cases (quantize s v) (min s) (max s))
      as [E|[E|E]]; [exact E| |]; rewrite E in *.
    - exfalso. exact (Qlt_irrefl _ Hlo).
    - exfalso. exact (Qlt_irrefl _ Hhi). }
  rewrite Hq in *.
  assert (Hi : quantize s (quantize s v) = quantize s v).
  { unfold quantize in Hstep |- *. destruct (isInteger s).
    - now rewrite Math_round_integer.
    - destruct (truthy (step s)) eqn:Ht; [|reflexivity].
      apply truthy_nonzero in Ht.
      destruct (Hstep eq_refl Ht) as [Hst Hv].
      now rewrite step_round_trip. }
  unfold quantize at 1. simpl. fold (quantize s (quantize s v)).
  rewrite Hi. exact Hq.
Qed.

(** X16, witness: [setValue(0.57)] with the step 0.01 over [0, 1]. *)
Lemma setValue_own_value_witness :
  getValue
    (fst (setValue
            (getValue
               (fst (setValue (Double.double (57 # 100))
                       (constructor 0 0 200 0 1 0 false
                          (Some (Double.double (1 # 100))) "" false))))
            (fst (setValue (Double.double (57 # 100))
                    (constructor 0 0 200 0 1 0 false
                       (Some (Double.double (1 # 100))) "" false)))))
  = getValue (fst (setValue (Double.double (57 # 100))
                     (constructor 0 0 200 0 1 0 false
                        (Some (Double.double (1 # 100))) "" false))).
Proof.
  apply (setValue_own_value (Double.double (57 # 100))
           (constructor 0 0 200 0 1 0 false
              (Some (Double.double (1 # 100))) "" false)).
  - split; vm_compute; reflexivity.
  - intros _ _. split; vm_compute; discriminate.
Defined.

End SliderDrag.

(** ** Slider: the value follows the pointer *)

Section SliderMonotone.

Import Slider.
Local Open Scope Q_scope.

Lemma map_mono (n1 n2 start1 stop1 start2 stop2 : Q) :
  start1 <= stop1 -> n1 <= n2 ->
  (start2 <= stop2 ->
   map n1 start1 stop1 start2 stop2 <= map n2 start1 stop1 start2 stop2) /\
  (stop2 <= start2 ->
   map n2 start1 stop1 start2 stop2 <= map n1 start1 stop1 start2 stop2).
Proof.
  intros Hd Hn. unfold map, Double.add, Double.mul, Double.div.
  assert (HD : 0 <= Double.sub stop1 start1)
    by (apply double_nonneg; lra).
  assert (Hinv : 0 <= / Double.sub stop1 start1)
    by (apply Qinv_le_0_compat, HD).
  assert (Hs : Double.sub n1 start1 <= Double.sub n2 start1)
    by (apply double_mono; lra).
  assert (Hu : Double.double (Double.sub n1 start1 / Double.sub stop1 start1)
               <= Double.double
                    (Double.sub n2 start1 / Double.sub stop1 start1)).
  { apply double_mono, Qmult_le_compat_r; [exact Hs | exact Hinv]. }
  set (u1 := Double.double (Double.sub n1 start1 / _)) in *.
  set (u2 := Double.double (Double.sub n2 start1 / _)) in *.
  split; intros Hk.
  - assert (HR : 0 <= Double.sub stop2 start2)
      by (apply double_nonneg; lra).
    assert (Hm : Double.double (u1 * Double.sub stop2 start2)
                 <= Double.double (u2 * Double.sub stop2 start2)).
    { apply double_mono, Qmult_le_compat_r; [exact Hu | exact HR]. }
    apply double_mono. lra.
  - assert (HR : Double.sub stop2 start2 <= 0)
      by (apply double_nonpos; lra).
    assert (Hm : Double.double (u2 * Double.sub stop2 start2)
                 <= Double.double (u1 * Double.sub stop2 start2)).
    { apply double_mono.
      assert (u1 * - Double.sub stop2 start2
              <= u2 * - Double.sub stop2 start2)
        by (apply Qmult_le_compat_r; [exact Hu | lra]).
      lra. }
    apply double_mono. lra.
Qed.

Lemma round_to_step_mono (st a b : Q) :
  a <= b ->
  (if truthy st
   then Double.mul (inject_Z (Math_round (Double.div a st))) st else a)
  <= (if truthy st
      then Double.mul (inject_Z (Math_round (Double.div b st))) st else b).
Proof.
  intros Hab. destruct (truthy st) eqn:Ht; [|exact Hab].
  apply truthy_nonzero in Ht. unfold Double.mul, Double.div.
  apply double_mono.
  destruct (Q_dec st 0) as [[Hn|Hp]|Hz]; [| |contradiction].
  - assert (Hq : b / st <= a / st).
    { assert (0 <= / - st) by (apply Qinv_le_0_compat; lra).
      assert (a * / - st <= b * / - st)
        by (apply Qmult_le_compat_r; assumption).
      assert (E : forall c : Q, c / st == - (c * / - st))
        by (intros c; field; lra).
      rewrite (E a), (E b). lra. }
    assert (Hr : inject_Z (Math_round (Double.double (b / st)))
                 <= inject_Z (Math_round (Double.double (a / st)))).
    { rewrite <- Zle_Qle. apply Math_round_mono, double_mono, Hq. }
    set (na := inject_Z (Math_round (Double.double (a / st)))) in *.
    set (nb := inject_Z (Math_round (Double.double (b / st)))) in *.
    assert (nb * - st <= na * - st)
      by (apply Qmult_le_compat_r; [exact Hr | lra]).
    lra.
  - apply Qmult_le_compat_r; [|lra].
    rewrite <- Zle_Qle. apply Math_round_mono, double_mono.
    apply Qmult_le_compat_r; [exact Hab|].
    apply Qinv_le_0_compat. lra.
Qed.

Lemma round_to_integer_mono (i : bool) (a b : Q) :
  a <= b ->
  (if i then inject_Z (Math_round a) else a)
  <= (if i then inject_Z (Math_round b) else b).
Proof.
  intros Hab. destruct i; [|exact Hab].
  rewrite <- Zle_Qle. now apply Math_round_mono.
Qed.

(** X17.  While a slider of positive length with [min <= max] is dragged,
    the value follows the pointer, whatever the step and with every
    operation rounded to a double: on a horizontal slider a pointer further
    to the right never gives a smaller value, and on a vertical slider a
    pointer further down never gives a larger value. *)
Theorem drag_follows_pointer (p1 p2 : P5.t) (s : Slider.t) :
  isDragging s = true -> (0 < Slider.length s)%Z ->
  min s <= max s ->
  (isVertical s = false -> (P5.mouseX p1 <= P5.mouseX p2)%Z ->
   getValue (fst (handleDrag p1 s)) <= getValue (fst (handleDrag p2 s))) /\
  (isVertical s = true -> (P5.mouseY p1 <= P5.mouseY p2)%Z ->
   getValue (fst (handleDrag p2 s)) <= getValue (fst (handleDrag p1 s))).
Proof.
  intros Hd Hlen Hle.
  unfold handleDrag, getValue. rewrite Hd. simpl.
  assert (Hspan : forall a : Z, inject_Z a <= inject_Z (a + Slider.length s)).
  { intros a. rewrite <- Zle_Qle. lia. }
  split; intros Hv Hm; apply constrain_mono; unfold dragValue; rewrite Hv;
    apply round_to_integer_mono, round_to_step_mono.
  - refine (proj1 (map_mono _ _ _ _ _ _ (Hspan _) _) Hle).
    rewrite <- Zle_Qle. exact Hm.
  - refine (proj2 (map_mono _ _ _ _ _ _ (Hspan _) _) Hle).
    rewrite <- Zle_Qle. exact Hm.
Qed.

(** X17, witness: a horizontal slider over [0, 1] with the step 0.01
    dragged to x = 29 and to x = 120. *)
Lemma drag_follows_pointer_witness :
  getValue
    (fst (handleDrag (pointer 29 10)
            (with_isDragging true
               (constructor 0 0 200 0 1 0 false None "" false))))
  <= getValue
       (fst (handleDrag (pointer 120 10)
               (with_isDragging true
                  (constructor 0 0 200 0 1 0 false None "" false)))).
Proof.
  apply (proj1 (drag_follows_pointer (pointer 29 10) (pointer 120 10)
                  (with_isDragging true
                     (constructor 0 0 200 0 1 0 false None "" false))
                  eq_refl eq_refl
                  ltac:(discriminate))).
  - reflexivity.
  - simpl. lia.
Defined.

End SliderMonotone.

(** ** Button and Checkbox *)

Section ButtonCheckbox.

(** X18.  A click calls [onClick] at most once, and exactly when a callback
    is registered and the pointer is strictly inside the rectangle of the
    button: a pointer on an edge, or a button whose width or height is not
    positive, never fires.  After a mouse move the hover flag says whether
    a click at that pointer position would fire. *)
Theorem button_click (p : P5.t) (b : Button.t) :
  (Button.handleClick p b = [tt] <->
   Button.onClick b = true /\
   (Button.x b < P5.mouseX p < Button.x b + Button.w b)%Z /\
   (Button.y b < P5.mouseY p < Button.y b + Button.h b)%Z) /\
  (Button.handleClick p b = [tt] \/ Button.handleClick p b = []) /\
  ((Button.w b <= 0)%Z \/ (Button.h b <= 0)%Z \/
   P5.mouseX p = Button.x b \/ P5.mouseX p = (Button.x b + Button.w b)%Z \/
   P5.mouseY p = Button.y b \/ P5.mouseY p = (Button.y b + Button.h b)%Z ->
   Button.handleClick p b = []) /\
  Button.handleClick p (Button.handleMouseMove p b)
  = (if Button.isHovered (Button.handleMouseMove p b) && Button.onClick b
     then [tt] else []).
Proof.
  assert (Hover : Button.isMouseOver p b = true <->
                  (Button.x b < P5.mouseX p < Button.x b + Button.w b)%Z /\
                  (Button.y b < P5.mouseY p < Button.y b + Button.h b)%Z).
  { unfold Button.isMouseOver. rewrite !andb_true_iff, !Z.ltb_lt. tauto. }
  unfold Button.handleClick.
  split; [|split; [|split]].
  - rewrite <- Hover. clear Hover.
    destruct (Button.isMouseOver p b); destruct (Button.onClick b);
      simpl; intuition discriminate.
  - destruct (_ && _); auto.
  - intros Hedge. destruct (Button.isMouseOver p b) eqn:E; [|reflexivity].
    exfalso. unfold Button.isMouseOver in E.
    rewrite !andb_true_iff, !Z.ltb_lt in E. lia.
  - reflexivity.
Qed.

(** X18, witness: a pointer on the left edge of a registered button. *)
Lemma button_click_witness :
  Button.handleClick (pointerEvent 10 0 5)
    (Button.setOnClick (Button.constructor 0 0 100 30 "ok")) = [].
Proof.
  apply (proj1 (proj2 (proj2 (button_click (pointerEvent 10 0 5)
                  (Button.setOnClick (Button.constructor 0 0 100 30 "ok")))))).
  right. right. left. reflexivity.
Defined.

(** X19.  Two clicks inside the 20 by 20 box of a checkbox restore its
    state; [onChange], when registered, is called once per click, first
    with the negated and then with the original state.  A click outside the
    box changes nothing and calls nothing. *)
Theorem checkbox_clicks (p1 p2 : P5.t) (c : Checkbox.t) :
  ((Checkbox.x c < P5.mouseX p1 < Checkbox.x c + 20)%Z ->
   (Checkbox.y c < P5.mouseY p1 < Checkbox.y c + 20)%Z ->
   (Checkbox.x c < P5.mouseX p2 < Checkbox.x c + 20)%Z ->
   (Checkbox.y c < P5.mouseY p2 < Checkbox.y c + 20)%Z ->
   Checkbox.isChecked (fst (Checkbox.handleClick p1 c))
   = negb (Checkbox.isChecked c) /\
   fst (Checkbox.handleClick p2 (fst (Checkbox.handleClick p1 c))) = c /\
   snd (Checkbox.handleClick p1 c)
   ++ snd (Checkbox.handleClick p2 (fst (Checkbox.handleClick p1 c)))
   = (if Checkbox.onChange c
      then [negb (Checkbox.isChecked c); Checkbox.isChecked c] else [])) /\
  (~ ((Checkbox.x c < P5.mouseX p1 < Checkbox.x c + 20)%Z /\
      (Checkbox.y c < P5.mouseY p1 < Checkbox.y c + 20)%Z) ->
   Checkbox.handleClick p1 c = (c, [])).
Proof.
  assert (Hhit : forall p (c' : Checkbox.t),
             Checkbox.x c' = Checkbox.x c -> Checkbox.y c' = Checkbox.y c ->
             ((Checkbox.x c' <? P5.mouseX p)%Z
              && (P5.mouseX p <? Checkbox.x c' + 20)%Z
              && (Checkbox.y c' <? P5.mouseY p)%Z
              && (P5.mouseY p <? Checkbox.y c' + 20)%Z = true <->
              (Checkbox.x c < P5.mouseX p < Checkbox.x c + 20)%Z /\
              (Checkbox.y c < P5.mouseY p < Checkbox.y c + 20)%Z)).
  { intros p c' -> ->. rewrite !andb_true_iff, !Z.ltb_lt. tauto. }
  split.
  - intros Hx1 Hy1 Hx2 Hy2.
    assert (H1 : Checkbox.handleClick p1 c
                 = (Checkbox.mk (Checkbox.x c) (Checkbox.y c)
                      (Checkbox.label c) (negb (Checkbox.checked c))
                      (Checkbox.onChange c),
                    if Checkbox.onChange c
                    then [negb (Checkbox.checked c)] else [])).
    { unfold Checkbox.handleClick.
      rewrite (proj2 (Hhit p1 c eq_refl eq_refl)); [reflexivity | tauto]. }
    rewrite H1. simpl. unfold Checkbox.handleClick at 1 2. simpl.
    rewrite (proj2 (Hhit p2 c eq_refl eq_refl)); [|tauto]. simpl.
    rewrite negb_involutive. unfold Checkbox.isChecked.
    split; [reflexivity|]. split; [now destruct c|].
    now destruct (Checkbox.onChange c).
  - intros Hout. unfold Checkbox.handleClick.
    destruct (_ && _) eqn:E; [|reflexivity].
    apply (Hhit p1 c eq_refl eq_refl) in E. contradiction.
Qed.

(** X19, witness: two clicks on a fresh checkbox with a callback. *)
Lemma checkbox_clicks_witness :
  fst (Checkbox.handleClick (pointerEvent 10 7 9)
         (fst (Checkbox.handleClick (pointerEvent 10 5 5)
                 (Checkbox.setOnChange (Checkbox.constructor 0 0 "on")))))
  = Checkbox.setOnChange (Checkbox.constructor 0 0 "on").
Proof.
  apply (proj1 (checkbox_clicks (pointerEvent 10 5 5) (pointerEvent 10 7 9)
                  (Checkbox.setOnChange (Checkbox.constructor 0 0 "on"))));
    simpl; lia.
Defined.

End ButtonCheckbox.

(** ** RadioButton *)

Section RadioButtons.

(** Buttons are 25 pixels apart and reach 10 pixels: the pointer is within
    reach of at most one of them. *)
Lemma near_unique (p : P5.t) (x y : Z) (i j : nat) :
  RadioButton.near p x (y + Z.of_nat i * 25) = true ->
  RadioButton.near p x (y + Z.of_nat j * 25) = true ->
  i = j.
Proof.
  unfold RadioButton.near. rewrite !Z.ltb_lt. intros Hi Hj.
  set (a := (P5.mouseY p - (y + Z.of_nat i * 25))%Z) in *.
  set (b := (P5.mouseY p - (y + Z.of_nat j * 25))%Z) in *.
  set (d := (P5.mouseX p - x)%Z) in *.
  assert (Ha : (-10 < a < 10)%Z) by nia.
  assert (Hb : (-10 < b < 10)%Z) by nia.
  assert (Hab : (a - b = (Z.of_nat j - Z.of_nat i) * 25)%Z)
    by (unfold a, b; lia).
  lia.
Qed.

Lemma scan_found (p : P5.t) (x y : Z) (rest : list string) :
  forall i j o,
    RadioButton.scan p x y i rest = Some (j, o) ->
    i <= j /\ rest !! (j - i) = Some o /\
    RadioButton.near p x (y + Z.of_nat j * 25) = true.
Proof.
  induction rest as [|o' rest IH]; intros i j o H; simpl in H;
    [discriminate|].
  destruct (RadioButton.near p x (y + Z.of_nat i * 25)) eqn:E.
  - injection H as <- <-. rewrite Nat.sub_diag. auto.
  - apply IH in H. destruct H as (Hle & Hl & Hn).
    split; [lia|]. split; [|exact Hn].
    replace (j - i) with (S (j - S i)) by lia. exact Hl.
Qed.

Lemma scan_finds (p : P5.t) (x y : Z) (rest : list string) :
  forall i k o,
    rest !! k = Some o ->
    RadioButton.near p x (y + Z.of_nat (i + k) * 25) = true ->
    exists j o', RadioButton.scan p x y i rest = Some (j, o').
Proof.
  induction rest as [|o' rest IH]; intros i k o Hk Hn; [discriminate|].
  simpl. destruct (RadioButton.near p x (y + Z.of_nat i * 25)) eqn:E;
    [eauto|].
  destruct k as [|k].
  - rewrite Nat.add_0_r in Hn. congruence.
  - simpl in Hk. apply (IH (S i) k o Hk).
    now replace (S i + k) with (i + S k) by lia.
Qed.

Lemma scan_none (p : P5.t) (x y : Z) (rest : list string) :
  forall i,
    (forall k, k < length rest ->
               RadioButton.near p x (y + Z.of_nat (i + k) * 25) = false) ->
    RadioButton.scan p x y i rest = None.
Proof.
  induction rest as [|o rest IH]; intros i H; [reflexivity|]. simpl.
  pose proof (H 0 ltac:(simpl; lia)) as H0. rewrite Nat.add_0_r in H0.
  rewrite H0. apply IH. intros k Hk.
  replace (S i + k) with (i + S k) by lia. apply H. simpl. lia.
Qed.

(** X20.  A click less than 10 pixels from the centre of the radio button
    of an option selects that option, whatever was selected before:
    [getSelected] then returns it and [onChange], when registered, is
    called once with it.  A click 10 pixels or more from every centre
    changes nothing and calls nothing. *)
Theorem radio_click (p : P5.t) (rb : RadioButton.t) :
  (forall (i : nat) (o : string),
      RadioButton.options rb !! i = Some o ->
      ((P5.mouseX p - RadioButton.x rb) * (P5.mouseX p - RadioButton.x rb)
       + (P5.mouseY p - (RadioButton.y rb + Z.of_nat i * 25))
         * (P5.mouseY p - (RadioButton.y rb + Z.of_nat i * 25)) < 100)%Z ->
      RadioButton.selected (fst (RadioButton.handleClick p rb)) = i /\
      RadioButton.getSelected (fst (RadioButton.handleClick p rb)) = Some o /\
      snd (RadioButton.handleClick p rb)
      = (if RadioButton.onChange rb then [o] else [])) /\
  ((forall i : nat,
       i < length (RadioButton.options rb) ->
       (100 <= (P5.mouseX p - RadioButton.x rb)
               * (P5.mouseX p - RadioButton.x rb)
               + (P5.mouseY p - (RadioButton.y rb + Z.of_nat i * 25))
                 * (P5.mouseY p - (RadioButton.y rb + Z.of_nat i * 25)))%Z) ->
   RadioButton.handleClick p rb = (rb, [])).
Proof.
  split.
  - intros i o Hi Hnear. apply Z.ltb_lt in Hnear.
    fold (RadioButton.near p (RadioButton.x rb)
            (RadioButton.y rb + Z.of_nat i * 25)) in Hnear.
    destruct (scan_finds p (RadioButton.x rb) (RadioButton.y rb)
                (RadioButton.options rb) 0 i o Hi Hnear) as (j & o' & Hs).
    destruct (scan_found _ _ _ _ _ _ _ Hs) as (_ & Hl & Hn).
    assert (j = i) as -> by (eapply near_unique; eassumption).
    rewrite Nat.sub_0_r, Hi in Hl. injection Hl as <-.
    unfold RadioButton.handleClick, RadioButton.getSelected. rewrite Hs.
    simpl. auto.
  - intros Hfar. unfold RadioButton.handleClick.
    rewrite scan_none; [reflexivity|].
    intros k Hk. unfold RadioButton.near. apply Z.ltb_ge.
    apply (Hfar k Hk).
Qed.

(** X20, witness: a click 3 pixels right and 2 pixels below the centre of
    the third of three buttons. *)
Lemma radio_click_witness :
  RadioButton.selected
    (fst (RadioButton.handleClick (pointerEvent 10 3 52)
            (RadioButton.constructor 0 0 ["a"; "b"; "c"]))) = 2 /\
  RadioButton.getSelected
    (fst (RadioButton.handleClick (pointerEvent 10 3 52)
            (RadioButton.constructor 0 0 ["a"; "b"; "c"]))) = Some "c" /\
  snd (RadioButton.handleClick (pointerEvent 10 3 52)
         (RadioButton.constructor 0 0 ["a"; "b"; "c"]))
  = (if RadioButton.onChange (RadioButton.constructor 0 0 ["a"; "b"; "c"])
     then ["c"] else []).
Proof.
  apply (proj1 (radio_click (pointerEvent 10 3 52)
                  (RadioButton.constructor 0 0 ["a"; "b"; "c"])) 2 "c").
  - reflexivity.
  - simpl. lia.
Defined.

(** X21.  A click never leaves a radio group with an index outside its
    options: when the selected index addresses an option before the click
    it does so after it, the options are unchanged, and [getSelected]
    returns an option. *)
Theorem radio_selected_in_range (p : P5.t) (rb : RadioButton.t) :
  RadioButton.selected rb < length (RadioButton.options rb) ->
  RadioButton.options (fst (RadioButton.handleClick p rb))
  = RadioButton.options rb /\
  RadioButton.selected (fst (RadioButton.handleClick p rb))
  < length (RadioButton.options rb) /\
  is_Some (RadioButton.getSelected (fst (RadioButton.handleClick p rb))).
Proof.
  intros Hsel. unfold RadioButton.handleClick, RadioButton.getSelected.
  destruct (RadioButton.scan p _ _ 0 _) as [[j o]|] eqn:Hs; simpl.
  - destruct (scan_found _ _ _ _ _ _ _ Hs) as (_ & Hl & _).
    rewrite Nat.sub_0_r in Hl.
    split; [reflexivity|]. split; [now apply lookup_lt_Some in Hl | eauto].
  - split; [reflexivity|]. split; [exact Hsel|].
    now apply lookup_lt_is_Some_2.
Qed.

(** X21, witness: a click far from a group of three options. *)
Lemma radio_selected_in_range_witness :
  RadioButton.selected (RadioButton.constructor 0 0 ["a"; "b"; "c"])
  < length (RadioButton.options (RadioButton.constructor 0 0 ["a"; "b"; "c"]))
  /\
  is_Some
    (RadioButton.getSelected
       (fst (RadioButton.handleClick (pointerEvent 10 300 300)
               (RadioButton.constructor 0 0 ["a"; "b"; "c"])))).
Proof.
  assert (H : RadioButton.selected (RadioButton.constructor 0 0 ["a"; "b"; "c"])
              < length (RadioButton.options
                          (RadioButton.constructor 0 0 ["a"; "b"; "c"])))
    by (simpl; lia).
  split; [exact H|].
  apply (radio_selected_in_range (pointerEvent 10 300 300)
           (RadioButton.constructor 0 0 ["a"; "b"; "c"]) H).
Defined.

End RadioButtons.

(** ** ColorPicker: the colour of the label *)

Section LabelColor.

Import ColorPicker.

Lemma hexDigit_range (c : ascii) (d : Z) :
  hexDigit c = Some d -> (0 <= d <= 15)%Z.
Proof.
  unfold hexDigit. set (n := Z.of_nat (nat_of_ascii c)).
  destruct (Z.leb_spec 48 n); destruct (Z.leb_spec n 57); simpl;
    try (intros [= <-]; lia);
    destruct (Z.leb_spec 97 n); destruct (Z.leb_spec n 102); simpl;
    try (intros [= <-]; lia);
    destruct (Z.leb_spec 65 n); destruct (Z.leb_spec n 70); simpl;
    try (intros [= <-]; lia); discriminate.
Qed.

(** A digit is neither white space, nor a sign, nor the [x] of a prefix. *)
Lemma hexDigit_plain (c : ascii) (d : Z) :
  hexDigit c = Some d ->
  isWhiteSpace c = false /\
  Ascii.eqb c "-" = false /\ Ascii.eqb c "+" = false /\
  Ascii.eqb c "x" = false /\ Ascii.eqb c "X" = false.
Proof.
  intros H.
  assert (Hne : forall c', hexDigit c' = None -> Ascii.eqb c c' = false).
  { intros c' Hc'. destruct (Ascii.eqb_spec c c'); [congruence | reflexivity]. }
  split; [|repeat split; apply Hne; reflexivity].
  destruct (isWhiteSpace c) eqn:E; [exfalso | reflexivity].
  unfold isWhiteSpace in E. rewrite !orb_true_iff, !Nat.eqb_eq in E.
  unfold hexDigit in H.
  destruct (Z.leb_spec 48 (Z.of_nat (nat_of_ascii c)));
    destruct (Z.leb_spec (Z.of_nat (nat_of_ascii c)) 57); simpl in H;
    try lia;
    destruct (Z.leb_spec 97 (Z.of_nat (nat_of_ascii c)));
    destruct (Z.leb_spec (Z.of_nat (nat_of_ascii c)) 102); simpl in H;
    try lia;
    destruct (Z.leb_spec 65 (Z.of_nat (nat_of_ascii c)));
    destruct (Z.leb_spec (Z.of_nat (nat_of_ascii c)) 70); simpl in H;
    try lia; discriminate.
Qed.

Lemma parseInt16_two_digits (c1 c0 : ascii) (d1 d0 : Z) :
  hexDigit c1 = Some d1 -> hexDigit c0 = Some d0 ->
  parseInt16 (String c1 (String c0 "")) = Some (16 * d1 + d0)%Z.
Proof.
  intros H1 H0.
  destruct (hexDigit_plain _ _ H1) as (W1 & M1 & P1 & _).
  destruct (hexDigit_plain _ _ H0) as (_ & _ & _ & X0 & X0').
  unfold parseInt16. simpl. rewrite W1, M1, P1, X0, X0'.
  rewrite andb_false_r. simpl. rewrite H1, H0. simpl.
  f_equal. lia.
Qed.

(** X22.  For a colour [#rrggbb] of six hexadecimal digits the three
    channels are read as the numbers 0 to 255 their digit pairs stand for,
    [yiq] is [(299 r + 587 g + 114 b) / 1000] and lies between 0 and 255,
    and the label is black exactly when [299 r + 587 g + 114 b] is at least
    128000, and white otherwise. *)
Theorem labelColor_of_hex (r1 r0 g1 g0 b1 b0 : ascii)
    (dr1 dr0 dg1 dg0 db1 db0 : Z) :
  hexDigit r1 = Some dr1 -> hexDigit r0 = Some dr0 ->
  hexDigit g1 = Some dg1 -> hexDigit g0 = Some dg0 ->
  hexDigit b1 = Some db1 -> hexDigit b0 = Some db0 ->
  exists r g b : Z,
    r = (16 * dr1 + dr0)%Z /\ g = (16 * dg1 + dg0)%Z /\
    b = (16 * db1 + db0)%Z /\
    (0 <= r <= 255)%Z /\ (0 <= g <= 255)%Z /\ (0 <= b <= 255)%Z /\
    yiq (hexColor r1 r0 g1 g0 b1 b0)
    = Some (inject_Z (r * 299 + g * 587 + b * 114) / 1000)%Q /\
    (0 <= inject_Z (r * 299 + g * 587 + b * 114) / 1000 <= 255)%Q /\
    ((128000 <= r * 299 + g * 587 + b * 114)%Z ->
     labelColor (hexColor r1 r0 g1 g0 b1 b0) = "#000000") /\
    ((r * 299 + g * 587 + b * 114 < 128000)%Z ->
     labelColor (hexColor r1 r0 g1 g0 b1 b0) = "#FFFFFF").
Proof.
  intros Hr1 Hr0 Hg1 Hg0 Hb1 Hb0.
  pose proof (hexDigit_range _ _ Hr1). pose proof (hexDigit_range _ _ Hr0).
  pose proof (hexDigit_range _ _ Hg1). pose proof (hexDigit_range _ _ Hg0).
  pose proof (hexDigit_range _ _ Hb1). pose proof (hexDigit_range _ _ Hb0).
  exists (16 * dr1 + dr0)%Z, (16 * dg1 + dg0)%Z, (16 * db1 + db0)%Z.
  do 3 (split; [reflexivity|]). do 3 (split; [lia|]).
  set (sum := ((16 * dr1 + dr0) * 299 + (16 * dg1 + dg0) * 587
               + (16 * db1 + db0) * 114)%Z).
  assert (Hsum : (0 <= sum <= 255000)%Z) by (unfold sum; lia).
  assert (Hy : yiq (hexColor r1 r0 g1 g0 b1 b0)
               = Some (inject_Z sum / 1000)%Q).
  { unfold yiq, channel, hexColor. simpl String.substring.
    rewrite (parseInt16_two_digits _ _ _ _ Hr1 Hr0),
      (parseInt16_two_digits _ _ _ _ Hg1 Hg0),
      (parseInt16_two_digits _ _ _ _ Hb1 Hb0).
    reflexivity. }
  assert (Hcmp : forall k : Z,
             (inject_Z k <= inject_Z sum / 1000)%Q <-> (k * 1000 <= sum)%Z).
  { intros k. unfold Qle, Qdiv, Qmult, Qinv, inject_Z. simpl. lia. }
  split; [exact Hy|]. split.
  - split.
    + apply (Hcmp 0%Z). lia.
    + unfold Qle, Qdiv, Qmult, Qinv, inject_Z. simpl. lia.
  - unfold labelColor. rewrite Hy. split; intros Hc.
    + assert (Qle_bool 128 (inject_Z sum / 1000) = true) as ->;
        [|reflexivity].
      apply Qle_bool_iff. apply (Hcmp 128%Z). lia.
    + destruct (Qle_bool 128 (inject_Z sum / 1000)) eqn:E; [|reflexivity].
      apply Qle_bool_iff in E. apply (Hcmp 128%Z) in E. lia.
Qed.

(** X22, witness: the colour #808080, whose [yiq] is exactly 128. *)
Lemma labelColor_of_hex_witness :
  labelColor (hexColor "8" "0" "8" "0" "8" "0") = "#000000".
Proof.
  destruct (labelColor_of_hex "8" "0" "8" "0" "8" "0" 8 0 8 0 8 0
              eq_refl eq_refl eq_refl eq_refl eq_refl eq_refl)
    as (r & g & b & -> & -> & -> & _ & _ & _ & _ & _ & Hblack & _).
  apply Hblack. simpl. lia.
Defined.

End LabelColor.

(** ** TextArea: Backspace inside a line, and the length of the text *)

Section TextLength.

(** X23.  In a focused text area whose cursor follows a character of its
    line, Backspace removes exactly that character: with the line made of
    [a], the character and [c], and the cursor right after the character,
    the line becomes [a] followed by [c], the other rows are unchanged, and
    the cursor goes back one column. *)
Theorem backspace_removes_character (p : P5.t) (ta : t) (a c : string)
    (ch : ascii) :
  isFocused ta = true -> P5.keyCode p = P5.BACKSPACE ->
  lines ta !! cursorY ta = Some (a +:+ String ch c) ->
  cursorX ta = String.length a + 1 ->
  exists ta',
    run [KeyPress p] ta = Some ta' /\
    lines ta' = <[cursorY ta := a +:+ c]> (lines ta) /\
    cursorX ta' = String.length a /\ cursorY ta' = cursorY ta.
Proof.
  intros Hf Hk Hl Hx.
  assert (Hle : cursorX ta <= String.length (a +:+ String ch c)).
  { rewrite string_length_app. simpl. lia. }
  assert (Hkb : keyBranch p (lines ta) (cursorX ta) (cursorY ta)
                = Some (<[cursorY ta := a +:+ c]> (lines ta),
                        String.length a, cursorY ta)).
  { rewrite (keyBranch_backspace_in_line _ _ _ _ Hl Hle p Hk) by lia.
    rewrite Hx. replace (String.length a + 1 - 1) with (String.length a)
      by lia.
    rewrite prefix_of_app.
    replace (a +:+ String ch c) with ((a +:+ String ch "") +:+ c)
      by (now rewrite string_app_assoc).
    replace (String.length a + 1) with (String.length (a +:+ String ch ""))
      by (rewrite string_length_app; reflexivity).
    now rewrite suffix_of_app. }
  destruct (one_key p ta _ _ _ (valid_intro ta _ Hl Hle) Hf Hkb)
    as (ta' & Hr & E1 & E2 & E3 & _).
  exists ta'. auto.
Qed.

(** X23, witness: Backspace after the "b" of "abc". *)
Lemma backspace_removes_character_witness :
  exists ta',
    run [KeyPress (keyEvent P5.BACKSPACE "Backspace")]
      (editing 100 100 ["abc"] 2 0 0 false) = Some ta' /\
    lines ta' =
      <[cursorY (editing 100 100 ["abc"] 2 0 0 false) := "a" +:+ "c"]>
        (lines (editing 100 100 ["abc"] 2 0 0 false)) /\
    cursorX ta' = String.length "a" /\
    cursorY ta' = cursorY (editing 100 100 ["abc"] 2 0 0 false).
Proof.
  apply (backspace_removes_character (keyEvent P5.BACKSPACE "Backspace")
           (editing 100 100 ["abc"] 2 0 0 false) "a" "c" "b"%char);
    reflexivity.
Defined.

Lemma join_length (ls : list string) :
  String.length (Js.join (String Js.nl "") ls)
  = sum_list_with (fun l => S (String.length l)) ls - 1.
Proof.
  induction ls as [|l ls IH]; [reflexivity|].
  destruct ls as [|l' ls]; [simpl; lia|].
  change (Js.join (String Js.nl "") (l :: l' :: ls))
    with (l +:+ String Js.nl "" +:+ Js.join (String Js.nl "") (l' :: ls)).
  rewrite !string_length_app, IH. simpl. lia.
Qed.

Lemma sum_after_insert (ls : list string) :
  forall i old new,
    ls !! i = Some old ->
    sum_list_with (fun l => S (String.length l)) (<[i := new]> ls)
    + String.length old
    = sum_list_with (fun l => S (String.length l)) ls + String.length new.
Proof.
  induction ls as [|a ls IH]; intros i old new Hi; [discriminate|].
  destruct i as [|i]; simpl in *.
  - injection Hi as ->. lia.
  - specialize (IH i old new Hi). lia.
Qed.

Lemma sum_after_split (ls : list string) :
  forall i old pre post,
    ls !! i = Some old ->
    String.length pre + String.length post = String.length old ->
    sum_list_with (fun l => S (String.length l))
      (take i ls ++ pre :: post :: drop (S i) ls)
    = S (sum_list_with (fun l => S (String.length l)) ls).
Proof.
  induction ls as [|a ls IH]; intros i old pre post Hi Hlen; [discriminate|].
  destruct i as [|i]; simpl in *.
  - injection Hi as ->. rewrite drop_0. lia.
  - rewrite (IH i old pre post Hi Hlen). lia.
Qed.

Lemma sum_after_join (ls : list string) :
  forall r prev cur,
    ls !! r = Some prev -> ls !! S r = Some cur ->
    S (sum_list_with (fun l => S (String.length l))
         (take r ls ++ (prev +:+ cur) :: drop (S (S r)) ls))
    = sum_list_with (fun l => S (String.length l)) ls.
Proof.
  induction ls as [|a ls IH]; intros r prev cur Hp Hc; [discriminate|].
  destruct r as [|r]; simpl in *.
  - injection Hp as ->. destruct ls as [|b ls]; [discriminate|].
    simpl in *. injection Hc as ->. rewrite ?drop_0, string_length_app. lia.
  - rewrite <- (IH r prev cur Hp Hc). lia.
Qed.

Lemma sum_positive (ls : list string) (i : nat) (l : string) :
  ls !! i = Some l ->
  0 < sum_list_with (fun l => S (String.length l)) ls.
Proof. destruct ls; [discriminate | simpl; lia]. Qed.

(** X24.  In a focused text area every editing key changes the length of
    the text by exactly one: a printable key and Enter make the lines,
    joined by line breaks, one character longer, and Backspace anywhere but
    at the very start of the text makes them one character shorter. *)
Theorem editing_changes_text_length (p : P5.t) (ta : t) :
  valid ta -> isFocused ta = true ->
  exists ta',
    run [KeyPress p] ta = Some ta' /\
    (Keys.printable p \/ P5.keyCode p = P5.ENTER ->
     String.length (getText ta')
     = S (String.length (Js.join (String Js.nl "") (lines ta)))) /\
    (P5.keyCode p = P5.BACKSPACE -> 0 < cursorX ta \/ 0 < cursorY ta ->
     S (String.length (getText ta'))
     = String.length (Js.join (String Js.nl "") (lines ta))).
Proof.
  intros Hv Hf. pose proof Hv as (_ & _ & line & Hl & Hx).
  destruct (keyBranch_cursor p _ _ _ _ Hl Hx)
    as (ls' & cx' & cy' & line' & Hkb & Hl' & _).
  destruct (one_key p ta _ _ _ Hv Hf Hkb) as (ta' & Hr & _ & _ & _ & Ht & _).
  exists ta'. split; [exact Hr|]. rewrite Ht, !join_length.
  pose proof (sum_positive _ _ _ Hl) as Hpos.
  pose proof (sum_positive _ _ _ Hl') as Hpos'.
  pose proof (prefix_suffix line _ Hx) as Hparts.
  apply (f_equal String.length) in Hparts.
  rewrite string_length_app in Hparts.
  pose proof (length_substring_prefix line _ Hx) as Hpre.
  split.
  - intros [Hp|He].
    + rewrite (keyBranch_printable _ _ _ _ Hl Hx p Hp) in Hkb.
      injection Hkb as <- _ _.
      pose proof (sum_after_insert _ _ _
                    (Js.substring line 0 (cursorX ta) +:+ P5.key p
                     +:+ Js.substring_from line (cursorX ta)) Hl) as Hs.
      rewrite !string_length_app in Hs. destruct Hp as [_ Hone]. lia.
    + rewrite (keyBranch_enter _ _ _ _ Hl Hx p He) in Hkb.
      injection Hkb as <- _ _.
      rewrite (sum_after_split _ _ _ _ _ Hl Hparts). lia.
  - intros Hb Hstart.
    destruct (Nat.eq_dec (cursorX ta) 0) as [Hz|Hnz].
    + destruct (cursorY ta) as [|r] eqn:Hy; [lia|].
      destruct (lookup_lt_is_Some_2 (lines ta) r) as [prev Hprev].
      { apply lookup_lt_Some in Hl. lia. }
      unfold keyBranch in Hkb. rewrite Hb, Hz in Hkb. simpl in Hkb.
      rewrite Nat.sub_0_r, Hprev, Hl in Hkb. simpl in Hkb.
      unfold Js.splice_delete in Hkb.
      rewrite (delete_after_insert _ _ _ _ _ Hprev Hl) in Hkb.
      injection Hkb as <- _ _.
      rewrite <- (sum_after_join _ _ _ _ Hprev Hl). lia.
    + rewrite (keyBranch_backspace_in_line _ _ _ _ Hl Hx p Hb) in Hkb by lia.
      injection Hkb as <- _ _.
      pose proof (sum_after_insert _ _ _
                    (Js.substring line 0 (cursorX ta - 1)
                     +:+ Js.substring_from line (cursorX ta)) Hl) as Hs.
      rewrite string_length_app, length_substring_prefix in Hs by lia.
      lia.
Qed.

(** X24, witness: Enter in the middle of "ab" makes the text "a\nb". *)
Lemma editing_changes_text_length_witness :
  valid (editing 100 100 ["ab"] 1 0 0 false) /\
  exists ta',
    run [KeyPress (keyEvent P5.ENTER "Enter")]
      (editing 100 100 ["ab"] 1 0 0 false) = Some ta' /\
    String.length (getText ta') = 3.
Proof.
  assert (Hv : valid (editing 100 100 ["ab"] 1 0 0 false)) by valid_by_eval.
  split; [exact Hv|].
  destruct (editing_changes_text_length (keyEvent P5.ENTER "Enter")
              (editing 100 100 ["ab"] 1 0 0 false) Hv eq_refl)
    as (ta' & Hr & Hgrow & _).
  exists ta'. split; [exact Hr|].
  rewrite Hgrow; [reflexivity | right; reflexivity].
Defined.

End TextLength.
